(** * chesschamp: the desktop chess loop and the fundraiser web front

    A shallow embedding of [main.py] (the pygame game: hit-testing, click
    handling, resignation, reset, the timed engine move) and of
    [chess_fundraiser_app/app.py] (the checkout and success handlers),
    followed by the properties checked against them.

    The chess rules library (python-chess), the UCI engine process and the
    payment service are external to the repository.  They appear here as an
    interface ([Rules]), as replies handed to the functions that consult the
    engine, and as an oracle for the payment calls. *)

From Stdlib Require Import ZArith List String Bool Lia.
Import ListNotations.
Local Open Scope string_scope.
Local Open Scope Z_scope.

(** ** Constants of [main.py] *)

Definition SCREEN_WIDTH : Z := 800.
Definition SCREEN_HEIGHT : Z := 700.
Definition BOARD_SIZE : Z := 8.
Definition SQUARE_SIZE : Z := 60.
Definition BOARD_WIDTH : Z := BOARD_SIZE * SQUARE_SIZE.
Definition BOARD_HEIGHT : Z := BOARD_SIZE * SQUARE_SIZE.
Definition BOARD_X : Z := (SCREEN_WIDTH - BOARD_WIDTH) / 2.
Definition BOARD_Y : Z := (SCREEN_HEIGHT - BOARD_HEIGHT - 80) / 2 + 40.
Definition AI_MOVE_DELAY : Z := 500.

(** ** The vocabulary of python-chess used by the game

    Colours are booleans there ([chess.WHITE = True], [chess.BLACK = False]),
    which is what makes [current_turn = not player_color] meaningful. *)

Definition Color := bool.
Definition WHITE : Color := true.
Definition BLACK : Color := false.

Definition Square := Z.

Inductive PieceType := PAWN | KNIGHT | BISHOP | ROOK | QUEEN | KING.

Record Piece := mkPiece { piece_type : PieceType; color : Color }.

(** [chess.Move(from_square, to_square, promotion=None, drop=None)]. *)
Record Move := mkMove {
  from_square : Square;
  to_square : Square;
  promotion : option PieceType;
  drop : option PieceType
}.

(** [chess.square(file_index, rank_index)], [chess.square_file] and
    [chess.square_rank]. *)
Definition square (file rank : Z) : Square := rank * 8 + file.
Definition square_file (s : Square) : Z := Z.land s 7.
Definition square_rank (s : Square) : Z := Z.shiftr s 3.

Definition PieceType_eqb (a b : PieceType) : bool :=
  match a, b with
  | PAWN, PAWN | KNIGHT, KNIGHT | BISHOP, BISHOP
  | ROOK, ROOK | QUEEN, QUEEN | KING, KING => true
  | _, _ => false
  end.

Definition is_some {A} (o : option A) : bool :=
  match o with Some _ => true | None => false end.

(** [Move.__bool__]: the null move is the only falsy move. *)
Definition move_bool (m : Move) : bool :=
  negb (from_square m =? 0) || negb (to_square m =? 0)
  || is_some (promotion m) || is_some (drop m).

Inductive Termination :=
  | CHECKMATE | STALEMATE | INSUFFICIENT_MATERIAL | SEVENTYFIVE_MOVES
  | FIVEFOLD_REPETITION | FIFTY_MOVES | THREEFOLD_REPETITION
  | VARIANT_WIN | VARIANT_LOSS | VARIANT_DRAW.

Record Outcome := mkOutcome { termination : Termination; winner : option Color }.

(** ** [get_square_from_mouse] *)

Definition in_board (x y : Z) : bool :=
  (BOARD_X <=? x) && (x <? BOARD_X + BOARD_WIDTH)
  && (BOARD_Y <=? y) && (y <? BOARD_Y + BOARD_HEIGHT).

Definition screen_col (x : Z) : Z := (x - BOARD_X) / SQUARE_SIZE.
Definition screen_row (y : Z) : Z := (y - BOARD_Y) / SQUARE_SIZE.

Definition mouse_file (player_color : Color) (x : Z) : Z :=
  if Bool.eqb player_color WHITE then screen_col x
  else BOARD_SIZE - 1 - screen_col x.

Definition mouse_rank (player_color : Color) (y : Z) : Z :=
  if Bool.eqb player_color WHITE then BOARD_SIZE - 1 - screen_row y
  else screen_row y.

Definition get_square_from_mouse (player_color : Color) (pos : Z * Z)
  : option Square :=
  let '(x, y) := pos in
  if negb (in_board x y) then None
  else Some (square (mouse_file player_color x) (mouse_rank player_color y)).

(** ** The rules library, as the game consumes it

    [Board] is [chess.Board]; [new_board] is [chess.Board()]; [is_legal b m]
    is [m in b.legal_moves]; [push] is [Board.push], returning the board after
    the move. *)

Class Rules := {
  Board : Type;
  new_board : Board;
  turn : Board -> Color;
  piece_at : Board -> Square -> option Piece;
  is_legal : Board -> Move -> bool;
  push : Board -> Move -> Board;
  is_game_over : Board -> bool;
  outcome : Board -> option Outcome;
  is_check : Board -> bool
}.

(** What the coordination proofs rely on from python-chess: the start
    position is White's to move and not terminal; a legal move moves a piece of
    the side to move; [push] hands the move to the other side. *)
Class RulesLaws (R : Rules) : Prop := {
  new_board_turn : turn new_board = WHITE;
  new_board_not_over : is_game_over new_board = false;
  legal_moves_own_piece : forall b m, is_legal b m = true ->
    exists p, piece_at b (from_square m) = Some p /\ color p = turn b;
  push_turn : forall b m, turn (push b m) = negb (turn b)
}.

(** The engine handle: [SimpleEngine.popen_uci] followed by
    [configure({"Skill Level": skill_level})]. *)
Record SimpleEngine := mkEngine { skill_level : Z }.

(** What one [engine.play(board, Limit(time=AI_THINK_TIME))] does: it returns a
    result whose [move] may be [None], or raises. *)
Inductive PlayReply :=
  | PlayResult (move : option Move)
  | EngineError
  | OtherException.

(** [str(termination).split('.')[1].replace('_', ' ').title()]. *)
Definition termination_title (t : Termination) : string :=
  match t with
  | CHECKMATE => "Checkmate"
  | STALEMATE => "Stalemate"
  | INSUFFICIENT_MATERIAL => "Insufficient Material"
  | SEVENTYFIVE_MOVES => "Seventyfive Moves"
  | FIVEFOLD_REPETITION => "Fivefold Repetition"
  | FIFTY_MOVES => "Fifty Moves"
  | THREEFOLD_REPETITION => "Threefold Repetition"
  | VARIANT_WIN => "Variant Win"
  | VARIANT_LOSS => "Variant Loss"
  | VARIANT_DRAW => "Variant Draw"
  end.

Definition color_name (c : Color) : string :=
  if Bool.eqb c WHITE then "White" else "Black".

(** [pygame.Rect] and [Rect.collidepoint]: left and top edges inside, right
    and bottom edges outside. *)
Record Rect := mkRect { left : Z; top : Z; width : Z; height : Z }.

Definition collidepoint (r : Rect) (pos : Z * Z) : bool :=
  let '(x, y) := pos in
  (left r <=? x) && (x <? left r + width r)
  && (top r <=? y) && (y <? top r + height r).

Definition button_y : Z := BOARD_Y + BOARD_HEIGHT + 20.
Definition button_width : Z := 120.
Definition button_height : Z := 40.
Definition button_spacing : Z := 30.
Definition total_button_width : Z := button_width * 2 + button_spacing.
Definition start_x : Z := (SCREEN_WIDTH - total_button_width) / 2.

Definition new_game_button : Rect :=
  mkRect start_x button_y button_width button_height.
Definition resign_button : Rect :=
  mkRect (start_x + button_width + button_spacing) button_y
         button_width button_height.

(** Events of the pygame queue.  A mouse press carries, besides its button and
    position, what the world answers if the handler asks: the value of
    [pygame.time.get_ticks()] and whether spawning the engine would succeed. *)
Inductive Event :=
  | QUIT
  | MOUSEBUTTONDOWN (button : Z) (pos : Z * Z) (ticks : Z) (popen_ok : bool)
  | OTHER_EVENT.

(** One iteration of the playing loop: the queued events, then the clock value
    read by the engine timing check and the engine's reply should it be
    asked. *)
Record Frame := mkFrame {
  events : list Event;
  now : Z;
  reply : PlayReply
}.

(** ** The global game state of [main.py] and the functions that mutate it *)

Section GameState.
Context {R : Rules}.

(** The module-level globals.  [engine_calls] is not a variable of the
    program: it records, oldest first, the board passed to each
    [engine.play] call, so that "the engine is invoked" can be stated. *)
Record Game := mkGame {
  chosen_skill_level : Z;
  player_color : Color;
  engine : option SimpleEngine;
  board : Board;
  selected_square : option Square;
  current_turn : Color;
  ai_move_trigger_time : option Z;
  status_text : string;
  info_text : string;
  game_over : bool;
  game_result_message : option string;
  engine_calls : list Board
}.

Definition set_engine (v : option SimpleEngine) (g : Game) : Game :=
  mkGame (chosen_skill_level g) (player_color g) v (board g)
         (selected_square g) (current_turn g) (ai_move_trigger_time g)
         (status_text g) (info_text g) (game_over g)
         (game_result_message g) (engine_calls g).

Definition set_board (v : Board) (g : Game) : Game :=
  mkGame (chosen_skill_level g) (player_color g) (engine g) v
         (selected_square g) (current_turn g) (ai_move_trigger_time g)
         (status_text g) (info_text g) (game_over g)
         (game_result_message g) (engine_calls g).

Definition set_selected_square (v : option Square) (g : Game) : Game :=
  mkGame (chosen_skill_level g) (player_color g) (engine g) (board g)
         v (current_turn g) (ai_move_trigger_time g)
         (status_text g) (info_text g) (game_over g)
         (game_result_message g) (engine_calls g).

Definition set_current_turn (v : Color) (g : Game) : Game :=
  mkGame (chosen_skill_level g) (player_color g) (engine g) (board g)
         (selected_square g) v (ai_move_trigger_time g)
         (status_text g) (info_text g) (game_over g)
         (game_result_message g) (engine_calls g).

Definition set_ai_move_trigger_time (v : option Z) (g : Game) : Game :=
  mkGame (chosen_skill_level g) (player_color g) (engine g) (board g)
         (selected_square g) (current_turn g) v
         (status_text g) (info_text g) (game_over g)
         (game_result_message g) (engine_calls g).

Definition set_status_text (v : string) (g : Game) : Game :=
  mkGame (chosen_skill_level g) (player_color g) (engine g) (board g)
         (selected_square g) (current_turn g) (ai_move_trigger_time g)
         v (info_text g) (game_over g)
         (game_result_message g) (engine_calls g).

Definition set_info_text (v : string) (g : Game) : Game :=
  mkGame (chosen_skill_level g) (player_color g) (engine g) (board g)
         (selected_square g) (current_turn g) (ai_move_trigger_time g)
         (status_text g) v (game_over g)
         (game_result_message g) (engine_calls g).

Definition set_game_over (v : bool) (g : Game) : Game :=
  mkGame (chosen_skill_level g) (player_color g) (engine g) (board g)
         (selected_square g) (current_turn g) (ai_move_trigger_time g)
         (status_text g) (info_text g) v
         (game_result_message g) (engine_calls g).

Definition set_game_result_message (v : option string) (g : Game) : Game :=
  mkGame (chosen_skill_level g) (player_color g) (engine g) (board g)
         (selected_square g) (current_turn g) (ai_move_trigger_time g)
         (status_text g) (info_text g) (game_over g)
         v (engine_calls g).

Definition record_engine_call (g : Game) : Game :=
  mkGame (chosen_skill_level g) (player_color g) (engine g) (board g)
         (selected_square g) (current_turn g) (ai_move_trigger_time g)
         (status_text g) (info_text g) (game_over g)
         (game_result_message g) (engine_calls g ++ [board g]).

(** [determine_game_outcome] *)
Definition determine_game_outcome (b : Board) : option string :=
  if is_game_over b then
    match outcome b with
    | Some o =>
        match winner o with
        | Some w =>
            Some (termination_title (termination o) ++ "! "
                  ++ color_name w ++ " Wins")%string
        | None => Some (termination_title (termination o) ++ "! Draw")%string
        end
    | None => Some "Game Over: Unknown Reason"
    end
  else None.

(** [update_ui_text] *)
Definition update_ui_text (g : Game) : Game :=
  let g := set_status_text (color_name (turn (board g)) ++ "'s Turn")%string g in
  if negb (game_over g) && is_check (board g)
  then set_info_text "Check!" g
  else set_info_text "" g.

(** [initialize_engine]: the previous handle, if any, is dropped; the new
    one exists only if spawning and configuring succeeded. *)
Definition initialize_engine (skill : Z) (popen_ok : bool) (g : Game) : Game :=
  let g := set_engine None g in
  if popen_ok then set_engine (Some (mkEngine skill)) g
  else set_engine None g.

(** [reset_game] *)
Definition reset_game (start_engine_if_needed popen_ok : bool) (ticks : Z)
           (g : Game) : Game :=
  let g := if start_engine_if_needed && negb (is_some (engine g))
           then initialize_engine (chosen_skill_level g) popen_ok g
           else g in
  let g := set_board new_board g in
  let g := set_selected_square None g in
  let g := set_current_turn WHITE g in
  let g := set_ai_move_trigger_time None g in
  let g := set_info_text "" g in
  let g := set_game_over false g in
  let g := set_game_result_message None g in
  let g := update_ui_text g in
  if Bool.eqb (player_color g) BLACK && negb (game_over g)
     && is_some (engine g)
  then set_ai_move_trigger_time (Some (ticks + 100)) g
  else g.

(** [resign_game] *)
Definition resign_game (g : Game) : Game :=
  if negb (game_over g) then
    let g := set_game_over true g in
    let winner := if Bool.eqb (player_color g) WHITE then "Black" else "White" in
    let g := set_game_result_message
               (Some (winner ++ " Wins by Resignation")%string) g in
    let g := set_info_text "" g in
    update_ui_text g
  else g.

(** The move built from the selected and the clicked square, with the
    queen promotion set when the piece on the selected square is a pawn and
    the clicked square is on the player's last rank. *)
Definition attempted_move (g : Game) (selected clicked : Square) : Move :=
  let is_promotion :=
    match piece_at (board g) selected with
    | Some moving_piece =>
        PieceType_eqb (piece_type moving_piece) PAWN
        && ((Bool.eqb (player_color g) WHITE && (square_rank clicked =? 7))
            || (Bool.eqb (player_color g) BLACK && (square_rank clicked =? 0)))
    | None => false
    end in
  mkMove selected clicked (if is_promotion then Some QUEEN else None) None.

(** The condition under which [move.promotion = chess.QUEEN] is set. *)
Definition pawn_reaches_last_rank (g : Game) (sel clicked : Square) : Prop :=
  exists p, piece_at (board g) sel = Some p /\ piece_type p = PAWN
            /\ square_rank clicked = (if player_color g then 7 else 0).

Definition owned_by_player (g : Game) (s : Square) : bool :=
  match piece_at (board g) s with
  | Some piece => Bool.eqb (color piece) (player_color g)
  | None => false
  end.

(** The branch taken when the attempted move is legal. *)
Definition apply_player_move (ticks : Z) (move : Move) (g : Game) : Game :=
  let g := set_board (push (board g) move) g in
  let g := set_selected_square None g in
  let g := set_current_turn (negb (player_color g)) g in
  let g := set_game_over (is_game_over (board g)) g in
  let g := if game_over g
           then set_game_result_message (determine_game_outcome (board g)) g
           else g in
  let g := update_ui_text g in
  if negb (game_over g) && is_some (engine g)
  then set_ai_move_trigger_time (Some ticks) g
  else g.

(** A click that landed on board square [clicked]. *)
Definition click_square (ticks : Z) (clicked : Square) (g : Game) : Game :=
  match selected_square g with
  | None =>
      if owned_by_player g clicked
      then set_selected_square (Some clicked) g
      else set_selected_square None g
  | Some selected =>
      let move := attempted_move g selected clicked in
      if is_legal (board g) move then apply_player_move ticks move g
      else if clicked =? selected then set_selected_square None g
      else if owned_by_player g clicked
           then set_selected_square (Some clicked) g
      else g
  end.

(** "Check Board Interaction": the part of the mouse handler that runs when
    no button took the click. *)
Definition board_interaction (ticks : Z) (pos : Z * Z) (g : Game) : Game :=
  if Bool.eqb (current_turn g) (player_color g) && negb (game_over g) then
    match get_square_from_mouse (player_color g) pos with
    | Some clicked_square => click_square ticks clicked_square g
    | None => set_selected_square None g
    end
  else g.

(** The button pass followed by the board pass.  "New Game" is always
    active and is tried first; "Resign" is active while the game is not
    over.  A button that takes the click ends the handling. *)
Definition handle_mouse_down (pos : Z * Z) (ticks : Z) (popen_ok : bool)
           (g : Game) : Game :=
  if collidepoint new_game_button pos then reset_game true popen_ok ticks g
  else if negb (game_over g) && collidepoint resign_button pos
       then resign_game g
  else board_interaction ticks pos g.

(** One event of the queue.  [QUIT] only lowers the loop's [running] flag
    and other event kinds are not looked at. *)
Definition handle_event (g : Game) (e : Event) : Game :=
  match e with
  | MOUSEBUTTONDOWN button pos ticks popen_ok =>
      if button =? 1 then handle_mouse_down pos ticks popen_ok g else g
  | QUIT | OTHER_EVENT => g
  end.

(** [make_ai_move] *)
Definition make_ai_move (r : PlayReply) (g : Game) : Game :=
  if is_some (engine g) && negb (Bool.eqb (turn (board g)) (player_color g))
     && negb (game_over g)
  then
    let g := record_engine_call g in
    let no_move (g : Game) :=
      let g := set_game_over (is_game_over (board g)) g in
      let g := if game_over g
               then set_game_result_message (determine_game_outcome (board g)) g
               else g in
      let g := update_ui_text g in
      if negb (game_over g) then set_current_turn (player_color g) g else g in
    let g :=
      match r with
      | PlayResult (Some m) =>
          if move_bool m then
            let g := set_board (push (board g) m) g in
            let g := set_current_turn (player_color g) g in
            let g := set_game_over (is_game_over (board g)) g in
            let g := if game_over g
                     then set_game_result_message
                            (determine_game_outcome (board g)) g
                     else g in
            update_ui_text g
          else no_move g
      | PlayResult None => no_move g
      | EngineError | OtherException =>
          update_ui_text (set_current_turn (player_color g) g)
      end in
    set_ai_move_trigger_time None g
  else g.

(** "AI Move Timing" at the end of the frame. *)
Definition ai_move_timing (now : Z) (r : PlayReply) (g : Game) : Game :=
  match ai_move_trigger_time g with
  | Some t =>
      if negb (game_over g)
         && negb (Bool.eqb (current_turn g) (player_color g))
         && is_some (engine g)
      then if now - t >=? AI_MOVE_DELAY then make_ai_move r g else g
      else g
  | None => g
  end.

(** One pass of the playing loop (both copies of the loop in [main] have
    this body). *)
Definition frame (g : Game) (f : Frame) : Game :=
  ai_move_timing (now f) (reply f) (fold_left handle_event (events f) g).

Definition run (frames : list Frame) (g : Game) : Game :=
  fold_left frame frames g.

(** The state in which [main] enters the playing loop: the module-level
    defaults, the colour and skill chosen on the command line or in the menu,
    the outcome of [initialize_engine], then
    [reset_game(start_engine_if_needed=False)]. *)
Definition startup (skill : Z) (pc : Color) (popen_ok : bool) (ticks : Z)
  : Game :=
  let g := mkGame skill pc None new_board None WHITE None "" "" false None [] in
  let g := initialize_engine skill popen_ok g in
  reset_game false popen_ok ticks g.

(** The loop seen one action at a time: an event handled, or the timing
    check run.  Every state the program passes through, also in the middle of
    a frame, is the result of such a sequence. *)
Inductive Step :=
  | StepEvent (e : Event)
  | StepTiming (now : Z) (r : PlayReply).

Definition step (g : Game) (st : Step) : Game :=
  match st with
  | StepEvent e => handle_event g e
  | StepTiming now r => ai_move_timing now r g
  end.

Definition steps (l : list Step) (g : Game) : Game := fold_left step l g.

Definition frame_steps (f : Frame) : list Step :=
  (map StepEvent (events f) ++ [StepTiming (now f) (reply f)])%list.

(** A left click on the "New Game" button, the only way [reset_game] is
    called from inside the loop. *)
Definition is_new_game_click (st : Step) : bool :=
  match st with
  | StepEvent (MOUSEBUTTONDOWN button pos _ _) =>
      (button =? 1) && collidepoint new_game_button pos
  | _ => false
  end.

Definition no_reset (l : list Step) : bool :=
  forallb (fun st => negb (is_new_game_click st)) l.

(** Every "New Game" click of the sequence finds the engine impossible to
    start. *)
Definition engine_never_starts (l : list Step) : bool :=
  forallb (fun st =>
             match st with
             | StepEvent (MOUSEBUTTONDOWN button pos _ popen_ok) =>
                 negb ((button =? 1) && collidepoint new_game_button pos)
                 || negb popen_ok
             | _ => true
             end) l.

(** States of a run of the program. *)
Definition reachable (g : Game) : Prop :=
  exists skill pc popen_ok ticks l,
    g = steps l (startup skill pc popen_ok ticks).

(** [engine.play] came back without a usable move: the result's move is
    [None] or falsy, or the call raised. *)
Definition reply_fails (r : PlayReply) : bool :=
  match r with
  | PlayResult (Some m) => negb (move_bool m)
  | PlayResult None => true
  | EngineError | OtherException => true
  end.

(** No handle, no trigger, no call so far. *)
Definition engine_silent (g : Game) : Prop :=
  engine g = None /\ ai_move_trigger_time g = None /\ engine_calls g = [].

(** The turn flag is the player's while the board still has the engine to
    move, and no trigger is armed: where a failed engine call leaves the
    game. *)
Definition handed_back (g : Game) : Prop :=
  current_turn g = player_color g /\ turn (board g) <> player_color g
  /\ ai_move_trigger_time g = None.

(** The selected square, if any, holds a piece of the player's colour, and a
    square is selected only while the turn flag is the player's. *)
Definition selection_ok (g : Game) : Prop :=
  forall s, selected_square g = Some s ->
            owned_by_player g s = true /\ current_turn g = player_color g.

(** The flags agree with the board: while the turn flag is the engine's the
    board has the engine to move; a game not flagged over is not over on the
    board and has no result message. *)
Record flags_ok (g : Game) : Prop := {
  turn_agrees : current_turn g <> player_color g ->
                turn (board g) <> player_color g;
  over_agrees : game_over g = false -> is_game_over (board g) = false;
  message_agrees : game_over g = false -> game_result_message g = None
}.

End GameState.

(** ** A two-ply fragment of chess

    A small rules library to run the game on: the standard start position,
    pawn advances and knight jumps.  It agrees with chess on the start
    position and on every position after White's first move (no capture,
    check or other piece move is possible there), which is where the examples
    below use it. *)

Module Fragment.

Record FBoard := mkFBoard {
  placement : list (Square * Piece);
  side : Color
}.

Definition back_rank : list PieceType :=
  [ROOK; KNIGHT; BISHOP; QUEEN; KING; BISHOP; KNIGHT; ROOK].

Fixpoint place_row (c : Color) (first : Square) (kinds : list PieceType)
  : list (Square * Piece) :=
  match kinds with
  | [] => []
  | k :: rest => (first, mkPiece k c) :: place_row c (first + 1) rest
  end.

Definition start_placement : list (Square * Piece) :=
  place_row WHITE 0 back_rank ++ place_row WHITE 8 (repeat PAWN 8)
  ++ place_row BLACK 48 (repeat PAWN 8) ++ place_row BLACK 56 back_rank.

Definition start : FBoard := mkFBoard start_placement WHITE.

Definition at_square (b : FBoard) (s : Square) : option Piece :=
  match find (fun e => fst e =? s) (placement b) with
  | Some e => Some (snd e)
  | None => None
  end.

Definition on_board (s : Square) : bool := (0 <=? s) && (s <? 64).

Definition empty (b : FBoard) (s : Square) : bool :=
  negb (is_some (at_square b s)).

Definition pawn_advance (b : FBoard) (c : Color) (m : Move) : bool :=
  let dir := if Bool.eqb c WHITE then 8 else -8 in
  let home := if Bool.eqb c WHITE then 1 else 6 in
  let last := if Bool.eqb c WHITE then 7 else 0 in
  negb (square_rank (to_square m) =? last)
  && negb (is_some (promotion m))
  && (((to_square m =? from_square m + dir) && empty b (to_square m))
      || ((to_square m =? from_square m + 2 * dir)
          && (square_rank (from_square m) =? home)
          && empty b (from_square m + dir) && empty b (to_square m))).

Definition knight_jump (b : FBoard) (c : Color) (m : Move) : bool :=
  let df := Z.abs (square_file (to_square m) - square_file (from_square m)) in
  let dr := Z.abs (square_rank (to_square m) - square_rank (from_square m)) in
  (((df =? 1) && (dr =? 2)) || ((df =? 2) && (dr =? 1)))
  && negb (is_some (promotion m))
  && match at_square b (to_square m) with
     | Some p => negb (Bool.eqb (color p) c)
     | None => true
     end.

Definition legal (b : FBoard) (m : Move) : bool :=
  on_board (from_square m) && on_board (to_square m)
  && negb (is_some (drop m))
  && match at_square b (from_square m) with
     | Some p =>
         Bool.eqb (color p) (side b)
         && match piece_type p with
            | PAWN => pawn_advance b (side b) m
            | KNIGHT => knight_jump b (side b) m
            | _ => false
            end
     | None => false
     end.

Definition without (s : Square) (l : list (Square * Piece))
  : list (Square * Piece) :=
  filter (fun e => negb (fst e =? s)) l.

Definition play (b : FBoard) (m : Move) : FBoard :=
  let rest := without (to_square m) (without (from_square m) (placement b)) in
  let moved :=
    match at_square b (from_square m) with
    | Some p =>
        [(to_square m,
          match promotion m with
          | Some k => mkPiece k (color p)
          | None => p
          end)]
    | None => []
    end in
  mkFBoard (moved ++ rest) (negb (side b)).

#[export] Instance rules : Rules := {|
  Board := FBoard;
  new_board := start;
  turn := side;
  piece_at := at_square;
  is_legal := legal;
  push := play;
  is_game_over := fun _ => false;
  outcome := fun _ => None;
  is_check := fun _ => false
|}.

(** Named squares and moves for the examples. *)
Definition e2 : Square := square 4 1.
Definition e4 : Square := square 4 3.
Definition e5 : Square := square 4 4.
Definition e7 : Square := square 4 6.
Definition d2 : Square := square 3 1.
Definition e2e4 : Move := mkMove e2 e4 None None.
Definition e7e5 : Move := mkMove e7 e5 None None.

(** The screen position of the centre of a square when the player is
    White. *)
Definition centre_for_white (s : Square) : Z * Z :=
  (BOARD_X + square_file s * SQUARE_SIZE + 30,
   BOARD_Y + (7 - square_rank s) * SQUARE_SIZE + 30).

Definition centre_for_black (s : Square) : Z * Z :=
  (BOARD_X + (7 - square_file s) * SQUARE_SIZE + 30,
   BOARD_Y + square_rank s * SQUARE_SIZE + 30).

Definition click (pos : Z * Z) (ticks : Z) (popen_ok : bool) : Event :=
  MOUSEBUTTONDOWN 1 pos ticks popen_ok.

(** A few states of a game on the fragment: the player is White and the
    engine started; the e-pawn is selected; the pawn has gone to e4 at tick
    20, which arms the engine trigger. *)
Definition opening : Game := startup 0 WHITE true 0.

Definition pawn_selected : Game :=
  steps [StepEvent (click (centre_for_white e2) 10 true)] opening.

Definition after_e4 : Game :=
  steps [StepEvent (click (centre_for_white e2) 10 true);
         StepEvent (click (centre_for_white e4) 20 true)] opening.

(** The same with an engine that could not be started, as White and as
    Black. *)
Definition no_engine : Game := startup 0 WHITE false 0.
Definition no_engine_black : Game := startup 0 BLACK false 0.

(** A point inside the "New Game" button. *)
Definition on_new_game : Z * Z := (300, 620).

End Fragment.

(** ** The fundraiser web application ([chess_fundraiser_app/app.py]) *)

Module Web.

(** [stripe_config.ENABLE_SIMULATION] *)
Definition ENABLE_SIMULATION : bool := true.

(** The view functions that redirects name through [url_for]. *)
Inductive Endpoint := index | checkout_ep | success_ep | game_settings_ep.

(** The URL rule of each view, as declared by [@app.route]. *)
Definition rule (e : Endpoint) : string :=
  match e with
  | index => "/"
  | checkout_ep => "/checkout"
  | success_ep => "/success"
  | game_settings_ep => "/settings"
  end.

Inductive Method := GET | POST.

(** A request that reached a view: its method and its query arguments. *)
Record Request := mkRequest {
  method : Method;
  args : list (string * string)
}.

(** [request.args.get(key)]: the first value for the key, if any. *)
Fixpoint args_get (key : string) (l : list (string * string)) : option string :=
  match l with
  | [] => None
  | (k, v) :: rest => if String.eqb k key then Some v else args_get key rest
  end.

(** Where a redirect points: a view of this application, addressed by
    [url_for] without extra values (so without a query string), or the URL of
    the hosted payment page. *)
Inductive Location :=
  | UrlFor (e : Endpoint)
  | HostedPage (url : string).

Inductive Response :=
  | Redirect (location : Location) (code : Z)
  | Template (name : string)
  | JsonError (message : string) (status : Z).

(** Calls to the payment service. *)
Inductive StripeCall :=
  | SessionCreate
  | SessionRetrieve (session_id : string).

Inductive CreateReply :=
  | Created (id url : string)
  | CreateRaises (message : string).

Inductive RetrieveReply :=
  | Retrieved (payment_status : string)
  | RetrieveRaises (message : string).

(** The payment service as the handlers see it. *)
Record Stripe := mkStripe {
  session_create : CreateReply;
  session_retrieve : string -> RetrieveReply
}.

(** What a view does besides answering: lines printed and calls to the
    payment service, oldest first. *)
Inductive Effect :=
  | Print (line : string)
  | Call (c : StripeCall).

(** A computation of a view: it extends the trace of effects and either
    returns a value or raises an [Exception]. *)
Inductive Result (A : Type) :=
  | Returned (a : A)
  | Raised (message : string).
Arguments Returned {A} a.
Arguments Raised {A} message.

Definition Handler (A : Type) : Type := list Effect -> Result A * list Effect.

Definition ret {A} (a : A) : Handler A := fun t => (Returned a, t).

Definition bind {A B} (h : Handler A) (k : A -> Handler B) : Handler B :=
  fun t =>
    match h t with
    | (Returned a, t') => k a t'
    | (Raised e, t') => (Raised e, t')
    end.

Definition emit (e : Effect) : Handler unit :=
  fun t => (Returned tt, (t ++ [e])%list).

Definition print (line : string) : Handler unit := emit (Print line).

(** [try: body except Exception as e: handler(e)] *)
Definition try_except {A} (body : Handler A) (handler : string -> Handler A)
  : Handler A :=
  fun t =>
    match body t with
    | (Returned a, t') => (Returned a, t')
    | (Raised e, t') => handler e t'
    end.

Notation "x <- h ;; k" := (bind h (fun x => k))
  (at level 61, h at next level, right associativity).
Notation "h ;;; k" := (bind h (fun _ => k))
  (at level 61, right associativity).

(** [stripe.checkout.Session.create(...)], returning the session's id and
    url. *)
Definition Session_create (stripe : Stripe) : Handler (string * string) :=
  emit (Call SessionCreate) ;;;
  match session_create stripe with
  | Created id url => ret (id, url)
  | CreateRaises e => fun t => (Raised e, t)
  end.

(** [stripe.checkout.Session.retrieve(session_id)], returning the session's
    [payment_status]. *)
Definition Session_retrieve (stripe : Stripe) (session_id : string)
  : Handler string :=
  emit (Call (SessionRetrieve session_id)) ;;;
  match session_retrieve stripe session_id with
  | Retrieved payment_status => ret payment_status
  | RetrieveRaises e => fun t => (Raised e, t)
  end.

(** Python truthiness of a string. *)
Definition str_bool (s : string) : bool :=
  negb (String.eqb s "").

(** [checkout] *)
Definition checkout (enable_simulation : bool) (stripe : Stripe)
           (req : Request) : Handler Response :=
  try_except
    (if enable_simulation then
       print "Simulating Stripe Checkout (ENABLE_SIMULATION=True)" ;;;
       ret (Redirect (UrlFor success_ep) 302)
     else
       checkout_session <- Session_create stripe ;;
       print ("Created Stripe checkout session: " ++ fst checkout_session) ;;;
       ret (Redirect (HostedPage (snd checkout_session)) 303))
    (fun e =>
       print ("Error creating Stripe checkout session: " ++ e) ;;;
       ret (JsonError e 500)).

(** [success] *)
Definition success (stripe : Stripe) (req : Request) : Handler Response :=
  match args_get "session_id" (args req) with
  | Some session_id =>
      if str_bool session_id then
        try_except
          (payment_status <- Session_retrieve stripe session_id ;;
           if String.eqb payment_status "paid"
           then print ("Verified successful payment for session " ++ session_id)
           else print ("Payment not complete for session " ++ session_id))
          (fun e => print ("Error verifying payment: " ++ e))
      else
        print "No session_id provided. This is either a simulated payment or direct access."
  | None =>
      print "No session_id provided. This is either a simulated payment or direct access."
  end ;;;
  ret (Redirect (UrlFor game_settings_ep) 302).

(** [game_settings] and [index] *)
Definition game_settings (req : Request) : Handler Response :=
  print "Loading game settings page..." ;;;
  ret (Template "settings.html").

Definition index_view (req : Request) : Handler Response :=
  print "Rendering index.html" ;;;
  ret (Template "index.html").

Definition view (enable_simulation : bool) (stripe : Stripe) (e : Endpoint)
           (req : Request) : Handler Response :=
  match e with
  | index => index_view req
  | checkout_ep => checkout enable_simulation stripe req
  | success_ep => success stripe req
  | game_settings_ep => game_settings req
  end.

(** A client that follows redirects inside the application, at most [hops]
    times: each followed redirect is a [GET] of the rule of the target view,
    with no query arguments.  The trace keeps growing along the way. *)
Fixpoint follow (enable_simulation : bool) (stripe : Stripe) (hops : nat)
         (r : Result Response * list Effect) : Result Response * list Effect :=
  match hops with
  | O => r
  | S hops' =>
      match fst r with
      | Returned (Redirect (UrlFor e) _) =>
          follow enable_simulation stripe hops'
                 (view enable_simulation stripe e (mkRequest GET []) (snd r))
      | _ => r
      end
  end.

(** The calls to the payment service recorded in a trace. *)
Fixpoint stripe_calls (t : list Effect) : list StripeCall :=
  match t with
  | [] => []
  | Call c :: rest => c :: stripe_calls rest
  | Print _ :: rest => stripe_calls rest
  end.

End Web.

(** ** Drawing: where squares and pieces go on the screen *)

Definition RGB : Type := Z * Z * Z.
Definition LIGHT_SQUARE : RGB := (240, 217, 181).
Definition DARK_SQUARE : RGB := (181, 136, 99).

(** [range(n)] *)
Definition range (n : nat) : list Z := map Z.of_nat (seq 0 n).

(** The logical rank and file [draw_board] computes for a screen cell. *)
Definition logical_rank (player_color : Color) (screen_row : Z) : Z :=
  if Bool.eqb player_color WHITE then BOARD_SIZE - 1 - screen_row
  else screen_row.

Definition logical_file (player_color : Color) (screen_col : Z) : Z :=
  if Bool.eqb player_color WHITE then screen_col
  else BOARD_SIZE - 1 - screen_col.

Definition is_light (player_color : Color) (screen_row screen_col : Z) : bool :=
  (logical_rank player_color screen_row + logical_file player_color screen_col)
    mod 2 =? 0.

Definition cell_rect (screen_row screen_col : Z) : Rect :=
  mkRect (BOARD_X + screen_col * SQUARE_SIZE) (BOARD_Y + screen_row * SQUARE_SIZE)
         SQUARE_SIZE SQUARE_SIZE.

(** [draw_board]: the rectangles filled, in drawing order, with their
    colour. *)
Definition draw_board (player_color : Color) : list (RGB * Rect) :=
  flat_map
    (fun screen_row =>
       map (fun screen_col =>
              ((if is_light player_color screen_row screen_col
                then LIGHT_SQUARE else DARK_SQUARE),
               cell_rect screen_row screen_col))
           (range 8))
    (range 8).

(** The top-left corner [draw_pieces] and [draw_selection] compute for a
    square (both use the same formula). *)
Definition square_screen_pos (player_color : Color) (s : Square) : Z * Z :=
  let file := square_file s in
  let rank := square_rank s in
  if Bool.eqb player_color WHITE
  then (BOARD_X + file * SQUARE_SIZE,
        BOARD_Y + (BOARD_SIZE - 1 - rank) * SQUARE_SIZE)
  else (BOARD_X + (BOARD_SIZE - 1 - file) * SQUARE_SIZE,
        BOARD_Y + rank * SQUARE_SIZE).

(** [piece.symbol().upper()] *)
Definition piece_letter (k : PieceType) : string :=
  match k with
  | PAWN => "P" | KNIGHT => "N" | BISHOP => "B"
  | ROOK => "R" | QUEEN => "Q" | KING => "K"
  end.

(** The key [draw_pieces] looks up in the image dictionary. *)
Definition image_key (p : Piece) : string :=
  ((if Bool.eqb (color p) WHITE then "w" else "b") ++ piece_letter (piece_type p))%string.

(** The keys [load_piece_images] puts in the dictionary (each with an image,
    or with [None] when loading failed). *)
Definition piece_symbols : list string :=
  ["wP"; "wN"; "wB"; "wR"; "wQ"; "wK"; "bP"; "bN"; "bB"; "bR"; "bQ"; "bK"].

(** [images.get(symbol)] being an image: the key is in the dictionary and
    its image loaded. *)
Definition image_available (loaded : string -> bool) (symbol : string) : bool :=
  existsb (String.eqb symbol) piece_symbols && loaded symbol.

Section Drawing.
Context {R : Rules}.

(** [draw_pieces]: the blits made, in order: image key and top-left corner.
    An image of [SQUARE_SIZE] centred on the middle of the cell has the cell's
    corner as its top-left. *)
Definition draw_pieces (player_color : Color) (current_board : Board)
           (loaded : string -> bool) : list (string * (Z * Z)) :=
  flat_map
    (fun square_index =>
       match piece_at current_board square_index with
       | Some piece =>
           if image_available loaded (image_key piece)
           then
             let '(screen_x, screen_y) :=
               square_screen_pos player_color square_index in
             [(image_key piece,
               (screen_x + SQUARE_SIZE / 2 - SQUARE_SIZE / 2,
                screen_y + SQUARE_SIZE / 2 - SQUARE_SIZE / 2))]
           else []
       | None => []
       end)
    (range 64).

(** [draw_selection]: the corner of the highlight, if a square is selected. *)
Definition draw_selection (player_color : Color) (sq_index : option Square)
  : option (Z * Z) :=
  match sq_index with
  | Some s => Some (square_screen_pos player_color s)
  | None => None
  end.

(** [draw_game_over_overlay] draws exactly when the game is over and the
    result message is a non-empty string; it returns the box it fills and the
    text. *)
Definition draw_game_over_overlay (g : Game) : option (Rect * string) :=
  match game_result_message g with
  | Some message =>
      if game_over g && negb (String.eqb message "")
      then
        let overlay_margin := 10 in
        Some (mkRect (BOARD_X + overlay_margin) (BOARD_Y + BOARD_HEIGHT / 2 - 40)
                     (BOARD_WIDTH - 2 * overlay_margin) 80,
              message)
      else None
  | None => None
  end.

End Drawing.

(** ** Further conditions kept by the loop *)

Section LoopConditions.
Context {R : Rules}.

(** An armed trigger means an engine exists and the turn flag is not the
    player's. *)
Definition trigger_ok (g : Game) : Prop :=
  forall t, ai_move_trigger_time g = Some t ->
            is_some (engine g) = true /\ current_turn g <> player_color g.

(** The two text fields say what [update_ui_text] would say now. *)
Definition ui_in_sync (g : Game) : Prop :=
  status_text g = (color_name (turn (board g)) ++ "'s Turn")%string
  /\ info_text g = (if negb (game_over g) && is_check (board g)
                    then "Check!" else "")%string.

(** A game flagged over has a non-empty result message. *)
Definition result_ok (g : Game) : Prop :=
  game_over g = true ->
  exists message, game_result_message g = Some message /\ message <> ""%string.

(** Every recorded engine call was made on a board with the engine to move
    and the game not finished. *)
Definition calls_ok (g : Game) : Prop :=
  forall b, In b (engine_calls g) ->
            turn b <> player_color g /\ is_game_over b = false.

(** What [reset_game] leaves as engine handle. *)
Definition engine_after_reset (start_engine_if_needed popen_ok : bool)
           (g : Game) : option SimpleEngine :=
  match engine g with
  | Some e => Some e
  | None => if start_engine_if_needed && popen_ok
            then Some (mkEngine (chosen_skill_level g)) else None
  end.

End LoopConditions.

(** ** The [Button] class *)

Section Buttons.
Variables Act Val St : Type.

(** How the program state changes when an action is called, with the
    button's value if it has one. *)
Variable call : Act -> option Val -> St -> St.

(** The fields of a button that matter to the click logic (fonts and colours
    only matter to drawing). *)
Record Button := mkButton {
  rect : Rect;
  action : option Act;
  value : option Val;
  is_hovered : bool;
  is_active : bool;
  is_selected : bool
}.

Definition set_is_active (v : bool) (b : Button) : Button :=
  mkButton (rect b) (action b) (value b) (is_hovered b) v (is_selected b).

Definition set_is_selected (v : bool) (b : Button) : Button :=
  mkButton (rect b) (action b) (value b) (is_hovered b) (is_active b) v.

(** [Button.check_hover] *)
Definition check_hover (b : Button) (mouse_pos : Z * Z) : Button :=
  mkButton (rect b) (action b) (value b) (collidepoint (rect b) mouse_pos)
           (is_active b) (is_selected b).

(** [Button.handle_click]: whether the click was handled, and the state
    after the action, if the button has one. *)
Definition handle_click (b : Button) (mouse_pos : Z * Z) (s : St) : bool * St :=
  if is_active b && collidepoint (rect b) mouse_pos then
    (true,
     match action b with
     | Some a => call a (value b) s
     | None => s
     end)
  else (false, s).

End Buttons.

Arguments mkButton {Act Val}.
Arguments rect {Act Val}.
Arguments action {Act Val}.
Arguments value {Act Val}.
Arguments is_hovered {Act Val}.
Arguments is_active {Act Val}.
Arguments is_selected {Act Val}.
Arguments set_is_active {Act Val}.
Arguments set_is_selected {Act Val}.
Arguments check_hover {Act Val}.
Arguments handle_click {Act Val St}.

(** ** The game buttons and the button pass of the playing loop *)

(** The two callables bound to game buttons. *)
Inductive GameAction := act_reset_game | act_resign_game.

Definition GameAction_eqb (a b : GameAction) : bool :=
  match a, b with
  | act_reset_game, act_reset_game | act_resign_game, act_resign_game => true
  | _, _ => false
  end.

(** Game buttons are built without a value. *)
Definition GameButton : Type := Button GameAction Empty_set.

Section ButtonPass.
Context {R : Rules}.

(** Calling a game action: [reset_game()] runs with its default
    [start_engine_if_needed=True]. *)
Definition call_game_action (ticks : Z) (popen_ok : bool)
           (a : GameAction) (v : option Empty_set) (g : Game) : Game :=
  match a with
  | act_reset_game => reset_game true popen_ok ticks g
  | act_resign_game => resign_game g
  end.

(** "Check Game Buttons": each button in turn has [is_active] refreshed and
    is offered the click; the first one that handles it ends the pass.  The
    result is the [button_clicked] flag, the buttons as the pass leaves them,
    and the state. *)
Fixpoint button_pass (buttons : list GameButton) (click_pos : Z * Z)
         (ticks : Z) (popen_ok : bool) (g : Game)
  : bool * list GameButton * Game :=
  match buttons with
  | [] => (false, [], g)
  | button :: rest =>
      let button :=
        match action button with
        | Some a =>
            if GameAction_eqb a act_resign_game
            then set_is_active (negb (game_over g)) button
            else set_is_active true button
        | None => set_is_active true button
        end in
      let '(handled, g') :=
        handle_click (call_game_action ticks popen_ok) button click_pos g in
      if handled then (true, button :: rest, g')
      else
        let '(button_clicked, rest', g'') :=
          button_pass rest click_pos ticks popen_ok g' in
        (button_clicked, button :: rest', g'')
  end.

(** The whole handler of a left mouse press, buttons included. *)
Definition mouse_down_with_buttons (buttons : list GameButton)
           (click_pos : Z * Z) (ticks : Z) (popen_ok : bool) (g : Game)
  : list GameButton * Game :=
  let '(button_clicked, buttons', g') :=
    button_pass buttons click_pos ticks popen_ok g in
  (buttons', if negb button_clicked then board_interaction ticks click_pos g'
             else g').

(** [game_buttons], as built before the loop. *)
Definition game_buttons : list GameButton :=
  [mkButton new_game_button (Some act_reset_game) None false true false;
   mkButton resign_button (Some act_resign_game) None false true false].

(** Buttons that are the game buttons up to their hover and active flags,
    which the loop rewrites. *)
Definition are_game_buttons (buttons : list GameButton) : Prop :=
  map (fun b => (rect b, action b, value b)) buttons
  = [(new_game_button, Some act_reset_game, None);
     (resign_button, Some act_resign_game, None)].

End ButtonPass.

(** ** The pre-game menu ([run_menu]) *)

Module Menu.

Definition MENU : Z := 0.
Definition PLAYING : Z := 1.

(** The three closures bound to menu buttons, and the values the buttons
    carry: a skill level or a colour. *)
Inductive MenuAction := set_difficulty | set_color | start_game_action.
Inductive MenuValue := Level (n : Z) | Side (c : Color).

Definition MenuButton : Type := Button MenuAction MenuValue.

(** The locals of [run_menu] that its closures write, the globals they
    write, and the button objects.  [exited] records that [sys.exit()] was
    called. *)
Record State := mkState {
  menu_selected_difficulty : option Z;
  menu_selected_color : option Color;
  menu_running : bool;
  game_state : Z;
  chosen_skill_level : Z;
  player_color : Color;
  difficulty_buttons : list MenuButton;
  color_buttons : list MenuButton;
  start_btn : MenuButton;
  exited : bool
}.

(** [btn.value == level] and [btn.value == color] *)
Definition value_is_level (level : Z) (btn : MenuButton) : bool :=
  match value btn with
  | Some (Level n) => n =? level
  | _ => false
  end.

Definition value_is_side (c : Color) (btn : MenuButton) : bool :=
  match value btn with
  | Some (Side d) => Bool.eqb d c
  | _ => false
  end.

(** The closure [set_difficulty] *)
Definition do_set_difficulty (level : Z) (m : State) : State :=
  mkState (Some level) (menu_selected_color m) (menu_running m) (game_state m)
          (chosen_skill_level m) (player_color m)
          (map (fun btn => set_is_selected (value_is_level level btn) btn)
               (difficulty_buttons m))
          (color_buttons m) (start_btn m) (exited m).

(** The closure [set_color] *)
Definition do_set_color (c : Color) (m : State) : State :=
  mkState (menu_selected_difficulty m) (Some c) (menu_running m) (game_state m)
          (chosen_skill_level m) (player_color m)
          (difficulty_buttons m)
          (map (fun btn => set_is_selected (value_is_side c btn) btn)
               (color_buttons m))
          (start_btn m) (exited m).

(** The closure [start_game_action] *)
Definition do_start_game_action (m : State) : State :=
  match menu_selected_difficulty m, menu_selected_color m with
  | Some level, Some c =>
      mkState (menu_selected_difficulty m) (menu_selected_color m) false PLAYING
              level c (difficulty_buttons m) (color_buttons m) (start_btn m)
              (exited m)
  | _, _ => m
  end.

(** Calling a button's action with its value.  [run_menu] only builds the
    three pairings of the first three cases. *)
Definition call (a : MenuAction) (v : option MenuValue) (m : State) : State :=
  match a, v with
  | set_difficulty, Some (Level n) => do_set_difficulty n m
  | set_color, Some (Side c) => do_set_color c m
  | start_game_action, None => do_start_game_action m
  | _, _ => m
  end.

Definition all_menu_buttons (m : State) : list MenuButton :=
  (difficulty_buttons m ++ color_buttons m ++ [start_btn m])%list.

(** The loop over [all_menu_buttons] of one click: the first button that
    handles the click ends it. *)
Fixpoint click_buttons (buttons : list MenuButton) (click_pos : Z * Z)
         (m : State) : State :=
  match buttons with
  | [] => m
  | button :: rest =>
      let '(handled, m') := handle_click call button click_pos m in
      if handled then m' else click_buttons rest click_pos m'
  end.

(** One event of the menu loop.  After [sys.exit()] nothing runs. *)
Definition menu_event (m : State) (e : Event) : State :=
  if exited m then m
  else
    match e with
    | QUIT =>
        mkState (menu_selected_difficulty m) (menu_selected_color m) false
                (game_state m) (chosen_skill_level m) (player_color m)
                (difficulty_buttons m) (color_buttons m) (start_btn m) true
    | MOUSEBUTTONDOWN button click_pos _ _ =>
        if button =? 1 then click_buttons (all_menu_buttons m) click_pos m
        else m
    | OTHER_EVENT => m
    end.

(** One pass of the menu loop: hover states, the start button enabled or
    not, then the events. *)
Definition menu_frame (m : State) (f : (Z * Z) * list Event) : State :=
  let '(mouse_pos, evs) := f in
  let hover := map (fun b => check_hover b mouse_pos) in
  let active := is_some (menu_selected_difficulty m)
                && is_some (menu_selected_color m) in
  let m :=
    mkState (menu_selected_difficulty m) (menu_selected_color m)
            (menu_running m) (game_state m) (chosen_skill_level m)
            (player_color m)
            (hover (difficulty_buttons m)) (hover (color_buttons m))
            (set_is_active active (check_hover (start_btn m) mouse_pos))
            (exited m) in
  fold_left menu_event evs m.

(** [while menu_running: ...] over the frames that occur. *)
Fixpoint run_menu (frames : list ((Z * Z) * list Event)) (m : State) : State :=
  match frames with
  | [] => m
  | f :: rest => if menu_running m then run_menu rest (menu_frame m f) else m
  end.

Definition btn_width_diff : Z := 140.
Definition btn_height : Z := 40.
Definition button_spacing_diff : Z := 15.
Definition total_width_diff : Z := 5 * btn_width_diff + (5 - 1) * button_spacing_diff.
Definition start_x_diff : Z := (SCREEN_WIDTH - total_width_diff) / 2.
Definition y_pos_diff : Z := 200.
Definition btn_width_col : Z := 150.
Definition total_width_col : Z := 2 * btn_width_col + 30.
Definition start_x_col : Z := (SCREEN_WIDTH - total_width_col) / 2.
Definition y_pos_col : Z := 350.

Definition difficulty_button (i : Z) : MenuButton :=
  mkButton (mkRect (start_x_diff + i * (btn_width_diff + button_spacing_diff))
                   y_pos_diff btn_width_diff btn_height)
           (Some set_difficulty) (Some (Level i)) false true false.

Definition white_btn : MenuButton :=
  mkButton (mkRect start_x_col y_pos_col btn_width_col btn_height)
           (Some set_color) (Some (Side WHITE)) false true false.

Definition black_btn : MenuButton :=
  mkButton (mkRect (start_x_col + btn_width_col + 30) y_pos_col
                   btn_width_col btn_height)
           (Some set_color) (Some (Side BLACK)) false true false.

Definition initial_start_btn : MenuButton :=
  mkButton (mkRect (SCREEN_WIDTH / 2 - 100) 500 200 50)
           (Some start_game_action) None false false false.

(** The state in which the menu loop starts: nothing selected, the module
    defaults in the globals, the buttons as built. *)
Definition initial : State :=
  mkState None None true MENU 0 WHITE
          (map difficulty_button (range 5)) [white_btn; black_btn]
          initial_start_btn false.

(** What of a button the loop never rewrites. *)
Definition shape (b : MenuButton)
  : Rect * option MenuAction * option MenuValue :=
  (rect b, action b, value b).

(** The condition the menu keeps: the buttons are the ones built, the
    highlighted buttons are those whose value is the current selection, a
    selected level is one of 0..4, and the globals are written only by a
    start with both selections made. *)
Record menu_ok (m : State) : Prop := {
  ok_difficulty : map shape (difficulty_buttons m)
                  = map shape (difficulty_buttons initial);
  ok_color : map shape (color_buttons m) = map shape (color_buttons initial);
  ok_start : shape (start_btn m) = shape (start_btn initial);
  ok_level : forall d, menu_selected_difficulty m = Some d -> 0 <= d <= 4;
  ok_difficulty_marks :
    forall b, In b (difficulty_buttons m) ->
              is_selected b = match menu_selected_difficulty m with
                              | Some d => value_is_level d b
                              | None => false
                              end;
  ok_color_marks :
    forall b, In b (color_buttons m) ->
              is_selected b = match menu_selected_color m with
                              | Some c => value_is_side c b
                              | None => false
                              end;
  ok_playing : game_state m = PLAYING ->
               menu_running m = false
               /\ (exists d, menu_selected_difficulty m = Some d)
               /\ (exists c, menu_selected_color m = Some c)
               /\ 0 <= chosen_skill_level m <= 4;
  ok_menu : game_state m <> PLAYING ->
            game_state m = MENU /\ chosen_skill_level m = 0
            /\ player_color m = WHITE
}.

End Menu.

(** ** Launching the game from the web application ([start_game]) *)

Module Launch.

(** What the view finds on the machine it runs on: the platform, the
    interpreter, where [main.py] should be and whether it is there, the
    [os.path] functions it uses, and whether spawning the process, writing
    the batch file and starting it raise. *)
Record Host := mkHost {
  win32 : bool;
  executable : string;
  main_py_path : string;
  main_py_exists : bool;
  dirname : string -> string;
  join : string -> string -> string;
  popen_raises : option string;
  write_raises : option string;
  startfile_raises : option string
}.

(** What the view does on the machine. *)
Inductive Effect :=
  | Print (line : string)
  | Popen (cmd : list string) (shell : bool)
  | WriteFile (path content : string)
  | StartFile (path : string).

(** The JSON answers: [status], [message], the echoed [params] if any, and
    the HTTP status code. *)
Record Response := mkResponse {
  status : string;
  message : string;
  params : option (string * string);
  code : Z
}.

(** [request.args.get(key, default)] *)
Definition args_get_default (key default : string)
           (l : list (string * string)) : string :=
  match Web.args_get key l with
  | Some v => v
  | None => default
  end.

Definition color_value (color : string) : string :=
  if String.eqb color "black" then "1" else "0".

(** The command line built for the platform. *)
Definition command (host : Host) (difficulty color : string) : list string :=
  if win32 host
  then ["start"; "cmd"; "/c"; executable host; main_py_path host;
        "--skill"; difficulty; "--color"; color_value color]
  else [executable host; main_py_path host;
        "--skill"; difficulty; "--color"; color_value color].

(** A newline and a double quote, as one-character strings. *)
Definition nl : string := String (Ascii.ascii_of_nat 10) EmptyString.
Definition dq : string := String (Ascii.ascii_of_nat 34) EmptyString.

Definition batch_content (host : Host) (difficulty color : string) : string :=
  ("@echo off" ++ nl ++ "cd " ++ dq ++ dirname host (main_py_path host) ++ dq
   ++ nl ++ dq ++ executable host ++ dq ++ " " ++ dq ++ main_py_path host ++ dq
   ++ " --skill " ++ difficulty ++ " --color " ++ color_value color
   ++ nl ++ "pause")%string.

Definition error_response (e : string) : Response :=
  mkResponse "error"
    ("Error starting game: " ++ e ++ ". Please try running main.py directly.")
    None 500.

(** [start_game] *)
Definition start_game (host : Host) (req : Web.Request)
  : Response * list Effect :=
  let difficulty := args_get_default "difficulty" "0" (Web.args req) in
  let color := args_get_default "color" "white" (Web.args req) in
  let looking := Print ("Looking for main.py at: " ++ main_py_path host) in
  if negb (main_py_exists host) then
    (mkResponse "error"
       ("Could not find main.py at path: " ++ main_py_path host) None 404,
     [looking])
  else
    let cmd := command host difficulty color in
    let tried :=
      [looking;
       Print ("Starting game with: difficulty=" ++ difficulty
              ++ ", color=" ++ color);
       Print ("Command: " ++ String.concat " " cmd);
       Popen cmd (win32 host)] in
    match popen_raises host with
    | None =>
        (mkResponse "success" "Game started successfully!"
           (Some (difficulty, color)) 200,
         tried)
    | Some e =>
        let tried :=
          (tried ++ [Print ("Error starting game: " ++ e);
                     Print "Trying alternative launch method..."])%list in
        if win32 host then
          let batch_path :=
            join host (dirname host (main_py_path host)) "launch_game.bat" in
          let write := WriteFile batch_path (batch_content host difficulty color) in
          match write_raises host with
          | Some fallback_error =>
              (error_response e,
               (tried ++ [write;
                          Print ("Alternative launch method also failed: "
                                 ++ fallback_error)])%list)
          | None =>
              match startfile_raises host with
              | Some fallback_error =>
                  (error_response e,
                   (tried ++ [write; StartFile batch_path;
                              Print ("Alternative launch method also failed: "
                                     ++ fallback_error)])%list)
              | None =>
                  (mkResponse "success" "Game started using alternative method!"
                     (Some (difficulty, color)) 200,
                   (tried ++ [write; StartFile batch_path])%list)
              end
          end
        else (error_response e, tried)
    end.

(** The effects that reach outside the web process. *)
Definition is_launch (e : Effect) : bool :=
  match e with
  | Print _ => false
  | _ => true
  end.

(** The tail of a command line. *)
Definition last_four (l : list string) : list string :=
  skipn (List.length l - 4)%nat l.

End Launch.

(** * Properties *)

(** ** Hit-testing the board *)

Lemma board_origin : BOARD_X = 160 /\ BOARD_Y = 110.
Proof. split; reflexivity. Qed.

Lemma in_board_spec (x y : Z) :
  in_board x y = true <->
  (BOARD_X <= x < BOARD_X + BOARD_WIDTH /\ BOARD_Y <= y < BOARD_Y + BOARD_HEIGHT).
Proof.
  unfold in_board.
  rewrite !andb_true_iff, !Z.leb_le, !Z.ltb_lt. tauto.
Qed.

Lemma screen_col_range (x : Z) :
  BOARD_X <= x < BOARD_X + BOARD_WIDTH -> 0 <= screen_col x <= 7.
Proof.
  unfold screen_col, BOARD_WIDTH, BOARD_SIZE, SQUARE_SIZE.
  destruct board_origin as [-> _]. intros H.
  Z.div_mod_to_equations. lia.
Qed.

Lemma screen_row_range (y : Z) :
  BOARD_Y <= y < BOARD_Y + BOARD_HEIGHT -> 0 <= screen_row y <= 7.
Proof.
  unfold screen_row, BOARD_HEIGHT, BOARD_SIZE, SQUARE_SIZE.
  destruct board_origin as [_ ->]. intros H.
  Z.div_mod_to_equations. lia.
Qed.

Lemma mouse_file_range (pc : Color) (x : Z) :
  BOARD_X <= x < BOARD_X + BOARD_WIDTH -> 0 <= mouse_file pc x <= 7.
Proof.
  intros H. apply screen_col_range in H.
  unfold mouse_file, BOARD_SIZE. destruct (Bool.eqb pc WHITE); lia.
Qed.

Lemma mouse_rank_range (pc : Color) (y : Z) :
  BOARD_Y <= y < BOARD_Y + BOARD_HEIGHT -> 0 <= mouse_rank pc y <= 7.
Proof.
  intros H. apply screen_row_range in H.
  unfold mouse_rank, BOARD_SIZE. destruct (Bool.eqb pc WHITE); lia.
Qed.

(** C10.  For every pointer coordinate and both orientations,
    [get_square_from_mouse] returns [None] exactly when the coordinate is
    outside the board rectangle; otherwise it returns the square built from a
    file and a rank that are each within 0..7, and that square is within
    0..63. *)
Theorem get_square_from_mouse_in_range (pc : Color) (x y : Z) :
  (get_square_from_mouse pc (x, y) = None <->
   ~ (BOARD_X <= x < BOARD_X + BOARD_WIDTH
      /\ BOARD_Y <= y < BOARD_Y + BOARD_HEIGHT))
  /\ match get_square_from_mouse pc (x, y) with
     | None => True
     | Some s =>
         s = square (mouse_file pc x) (mouse_rank pc y)
         /\ 0 <= mouse_file pc x <= 7
         /\ 0 <= mouse_rank pc y <= 7
         /\ 0 <= s <= 63
     end.
Proof.
  unfold get_square_from_mouse.
  destruct (in_board x y) eqn:E; cbn [negb].
  - apply in_board_spec in E. destruct E as [Hx Hy].
    pose proof (mouse_file_range pc x Hx) as Hf.
    pose proof (mouse_rank_range pc y Hy) as Hr.
    split.
    + split; [discriminate | intros N; exfalso; apply N; split; assumption].
    + unfold square. repeat split; lia.
  - split; [|exact I].
    split; [|reflexivity].
    intros _ H. apply in_board_spec in H. congruence.
Qed.

(** ** The payment front *)

(** The verification block of [success] never raises, whatever the payment
    service does. *)
Lemma success_returns (stripe : Web.Stripe) (req : Web.Request)
      (t : list Web.Effect) :
  exists t', Web.success stripe req t
             = (Web.Returned (Web.Redirect (Web.UrlFor Web.game_settings_ep) 302), t').
Proof.
  unfold Web.success, Web.bind, Web.try_except, Web.Session_retrieve,
    Web.bind, Web.print, Web.emit, Web.ret.
  destruct (Web.args_get "session_id" (Web.args req)) as [sid|]; [|eexists; reflexivity].
  destruct (Web.str_bool sid); [|eexists; reflexivity].
  destruct (Web.session_retrieve stripe sid) as [status|e]; [|eexists; reflexivity].
  destruct (String.eqb status "paid"); eexists; reflexivity.
Qed.

(** C9.  Every request to the success endpoint is answered by a redirect to
    the game-settings page: with no session id, with a verification that
    raises, with a payment reported unpaid or paid alike. *)
Theorem success_always_redirects_to_settings
        (stripe : Web.Stripe) (req : Web.Request) (t : list Web.Effect) :
  fst (Web.success stripe req t)
  = Web.Returned (Web.Redirect (Web.UrlFor Web.game_settings_ep) 302).
Proof.
  destruct (success_returns stripe req t) as [t' ->]. reflexivity.
Qed.

(** C8.  With simulation enabled, a request to the checkout endpoint is
    answered by a redirect to the success view; following it leads to the
    settings page, and however far the redirects are followed the trace holds
    no call to the payment service. *)
Theorem checkout_simulated_reaches_settings
        (sim : bool) (stripe : Web.Stripe) (req : Web.Request) :
  sim = true ->
  let r := Web.checkout sim stripe req [] in
  fst r = Web.Returned (Web.Redirect (Web.UrlFor Web.success_ep) 302)
  /\ fst (Web.follow sim stripe 1 r)
     = Web.Returned (Web.Redirect (Web.UrlFor Web.game_settings_ep) 302)
  /\ fst (Web.follow sim stripe 2 r) = Web.Returned (Web.Template "settings.html")
  /\ forall hops, Web.stripe_calls (snd (Web.follow sim stripe hops r)) = [].
Proof.
  intros ->. cbn zeta.
  repeat split.
  intros [|[|[|hops]]]; reflexivity.
Qed.

Lemma checkout_simulated_reaches_settings_witness :
  let r := Web.checkout Web.ENABLE_SIMULATION
             (Web.mkStripe (Web.CreateRaises "unreachable")
                           (fun _ => Web.RetrieveRaises "unreachable"))
             (Web.mkRequest Web.POST [("session_id", "cs_test_1")]) [] in
  fst r = Web.Returned (Web.Redirect (Web.UrlFor Web.success_ep) 302)
  /\ fst (Web.follow Web.ENABLE_SIMULATION
            (Web.mkStripe (Web.CreateRaises "unreachable")
                          (fun _ => Web.RetrieveRaises "unreachable")) 1 r)
     = Web.Returned (Web.Redirect (Web.UrlFor Web.game_settings_ep) 302)
  /\ fst (Web.follow Web.ENABLE_SIMULATION
            (Web.mkStripe (Web.CreateRaises "unreachable")
                          (fun _ => Web.RetrieveRaises "unreachable")) 2 r)
     = Web.Returned (Web.Template "settings.html")
  /\ forall hops,
      Web.stripe_calls
        (snd (Web.follow Web.ENABLE_SIMULATION
                (Web.mkStripe (Web.CreateRaises "unreachable")
                              (fun _ => Web.RetrieveRaises "unreachable")) hops r))
      = [].
Proof.
  apply (checkout_simulated_reaches_settings Web.ENABLE_SIMULATION). reflexivity.
Defined.

(** ** The game loop: field-level facts *)

(** Once the state is an explicit record every setter and projection
    computes. *)
Ltac fields :=
  cbv [update_ui_text initialize_engine
       set_engine set_board set_selected_square set_current_turn
       set_ai_move_trigger_time set_status_text set_info_text set_game_over
       set_game_result_message record_engine_call
       chosen_skill_level player_color engine board selected_square
       current_turn ai_move_trigger_time status_text info_text game_over
       game_result_message engine_calls] in *.

Ltac split_ifs :=
  cbn [negb andb orb is_some] in *;
  repeat match goal with
         | |- context [if ?c then _ else _] =>
             destruct c eqn:?; cbn [negb andb orb is_some] in *
         end.

Section GameFacts.
Context {R : Rules}.

(** [update_ui_text] only writes the two text fields. *)
Lemma update_ui_text_keeps (g : Game) :
  let g' := update_ui_text g in
  player_color g' = player_color g /\ engine g' = engine g
  /\ board g' = board g /\ selected_square g' = selected_square g
  /\ current_turn g' = current_turn g
  /\ ai_move_trigger_time g' = ai_move_trigger_time g
  /\ game_over g' = game_over g
  /\ game_result_message g' = game_result_message g
  /\ engine_calls g' = engine_calls g.
Proof.
  destruct g. fields. split_ifs. all: repeat split.
Qed.

Lemma reset_game_fields (start ok : bool) (ticks : Z) (g : Game) :
  let g' := reset_game start ok ticks g in
  board g' = new_board /\ selected_square g' = None
  /\ current_turn g' = WHITE /\ game_over g' = false
  /\ game_result_message g' = None
  /\ player_color g' = player_color g
  /\ engine_calls g' = engine_calls g.
Proof.
  destruct g. cbv [reset_game]. fields. split_ifs. all: repeat split.
Qed.

Lemma resign_game_keeps (g : Game) :
  let g' := resign_game g in
  player_color g' = player_color g /\ engine g' = engine g
  /\ board g' = board g /\ selected_square g' = selected_square g
  /\ current_turn g' = current_turn g
  /\ ai_move_trigger_time g' = ai_move_trigger_time g
  /\ engine_calls g' = engine_calls g.
Proof.
  destruct g. cbv [resign_game]. fields. split_ifs. all: repeat split.
Qed.

Lemma apply_player_move_fields (ticks : Z) (m : Move) (g : Game) :
  let g' := apply_player_move ticks m g in
  board g' = push (board g) m /\ selected_square g' = None
  /\ current_turn g' = negb (player_color g)
  /\ player_color g' = player_color g /\ engine g' = engine g
  /\ game_over g' = is_game_over (push (board g) m)
  /\ game_result_message g'
     = (if is_game_over (push (board g) m)
        then determine_game_outcome (push (board g) m)
        else game_result_message g)
  /\ ai_move_trigger_time g'
     = (if negb (is_game_over (push (board g) m)) && is_some (engine g)
        then Some ticks else ai_move_trigger_time g)
  /\ engine_calls g' = engine_calls g.
Proof.
  destruct g. cbv [apply_player_move]. fields.
  destruct (is_game_over (push board0 m)), engine0; fields; split_ifs.
  all: repeat split; congruence.
Qed.

(** [make_ai_move] when its guard fails: nothing happens, and in particular
    the trigger is left as it was. *)
Lemma make_ai_move_guard_fails (r : PlayReply) (g : Game) :
  is_some (engine g) && negb (Bool.eqb (turn (board g)) (player_color g))
  && negb (game_over g) = false ->
  make_ai_move r g = g.
Proof. intros H. unfold make_ai_move. now rewrite H. Qed.

(** [make_ai_move] with a usable move. *)
Lemma make_ai_move_moves (m : Move) (g : Game) :
  is_some (engine g) && negb (Bool.eqb (turn (board g)) (player_color g))
  && negb (game_over g) = true ->
  move_bool m = true ->
  let g' := make_ai_move (PlayResult (Some m)) g in
  board g' = push (board g) m /\ selected_square g' = selected_square g
  /\ current_turn g' = player_color g
  /\ player_color g' = player_color g /\ engine g' = engine g
  /\ game_over g' = is_game_over (push (board g) m)
  /\ game_result_message g'
     = (if is_game_over (push (board g) m)
        then determine_game_outcome (push (board g) m)
        else game_result_message g)
  /\ ai_move_trigger_time g' = None
  /\ engine_calls g' = (engine_calls g ++ [board g])%list.
Proof.
  intros H Hm. unfold make_ai_move. rewrite H, Hm. clear H.
  destruct g. fields.
  destruct (is_game_over (push board0 m)), engine0; fields; split_ifs.
  all: repeat split; congruence.
Qed.

(** [make_ai_move] without a usable move, or with an exception. *)
Lemma make_ai_move_fails (r : PlayReply) (g : Game) :
  is_some (engine g) && negb (Bool.eqb (turn (board g)) (player_color g))
  && negb (game_over g) = true ->
  reply_fails r = true ->
  let g' := make_ai_move r g in
  board g' = board g /\ selected_square g' = selected_square g
  /\ player_color g' = player_color g /\ engine g' = engine g
  /\ ai_move_trigger_time g' = None
  /\ engine_calls g' = (engine_calls g ++ [board g])%list
  /\ match r with
     | PlayResult _ =>
         game_over g' = is_game_over (board g)
         /\ current_turn g'
            = (if is_game_over (board g) then current_turn g
               else player_color g)
         /\ game_result_message g'
            = (if is_game_over (board g)
               then determine_game_outcome (board g)
               else game_result_message g)
     | _ =>
         game_over g' = game_over g /\ current_turn g' = player_color g
         /\ game_result_message g' = game_result_message g
     end.
Proof.
  intros H Hr. unfold make_ai_move. rewrite H. clear H.
  destruct r as [[m|]| |]; cbn [reply_fails] in Hr.
  1: apply negb_true_iff in Hr; rewrite Hr.
  all: destruct g; fields.
  1,2: destruct (is_game_over board0); fields.
  all: split_ifs.
  all: repeat split; congruence.
Qed.

End GameFacts.

(** ** The game loop: what a finished game and a selection look like *)

Section GameLoop.
Context {R : Rules}.

Lemma steps_app (l1 l2 : list Step) (g : Game) :
  steps (l1 ++ l2) g = steps l2 (steps l1 g).
Proof. apply fold_left_app. Qed.

(** A run of frames is a run of steps. *)
Lemma run_as_steps (frames : list Frame) (g : Game) :
  run frames g = steps (flat_map frame_steps frames) g.
Proof.
  revert g. induction frames as [|f frames IH]; intros g; [reflexivity|].
  cbn [run fold_left flat_map]. rewrite steps_app. fold (run frames (frame g f)).
  rewrite IH. f_equal.
  unfold frame, frame_steps. rewrite steps_app. cbn [steps fold_left step].
  f_equal. unfold steps. generalize (events f) g.
  induction l as [|e l IHl]; intros g0; [reflexivity|]. cbn. apply IHl.
Qed.

(** Once the game is flagged over, nothing but "New Game" changes the
    state: "Resign" is inactive, the board ignores the click and the timing
    check is skipped. *)
Lemma step_when_over (g : Game) (st : Step) :
  game_over g = true -> is_new_game_click st = false -> step g st = g.
Proof.
  intros Hover Hclick. destruct st as [[ |button pos ticks ok| ]|now r];
    cbn [step handle_event]; try reflexivity.
  - cbn [is_new_game_click] in Hclick.
    destruct (button =? 1); [|reflexivity]. cbn [andb] in Hclick.
    unfold handle_mouse_down, board_interaction.
    rewrite Hclick, Hover. cbn [negb andb].
    now rewrite andb_false_r.
  - unfold ai_move_timing. rewrite Hover.
    now destruct (ai_move_trigger_time g).
Qed.

Lemma steps_when_over (l : list Step) (g : Game) :
  game_over g = true -> no_reset l = true -> steps l g = g.
Proof.
  intros Hover. induction l as [|st l IH]; [reflexivity|].
  cbn [no_reset forallb]. intros H. apply andb_true_iff in H as [H1 H2].
  apply negb_true_iff in H1.
  cbn [steps fold_left]. rewrite (step_when_over g st Hover H1).
  apply IH, H2.
Qed.

Lemma selection_ok_none (g : Game) :
  selected_square g = None -> selection_ok g.
Proof. intros H s Hs. congruence. Qed.

Lemma selection_ok_select (g : Game) (clicked : Square) :
  owned_by_player g clicked = true -> current_turn g = player_color g ->
  selection_ok (set_selected_square (Some clicked) g).
Proof.
  unfold selection_ok, owned_by_player. destruct g. fields.
  intros Hown Hturn s Hs. inversion Hs; subst. split; [assumption|reflexivity].
Qed.

Lemma click_square_selection_ok (ticks : Z) (clicked : Square) (g : Game) :
  current_turn g = player_color g ->
  selection_ok g -> selection_ok (click_square ticks clicked g).
Proof.
  intros Hturn Hok. unfold click_square.
  destruct (selected_square g) as [sel|] eqn:Hsel.
  - destruct (is_legal (board g) (attempted_move g sel clicked)).
    + apply selection_ok_none. apply apply_player_move_fields.
    + destruct (clicked =? sel).
      * apply selection_ok_none. now destruct g.
      * destruct (owned_by_player g clicked) eqn:Hown; [|exact Hok].
        now apply selection_ok_select.
  - destruct (owned_by_player g clicked) eqn:Hown.
    + now apply selection_ok_select.
    + apply selection_ok_none. now destruct g.
Qed.

Lemma step_selection_ok (g : Game) (st : Step) :
  selection_ok g -> selection_ok (step g st).
Proof.
  intros Hok. destruct st as [[ |button pos ticks ok| ]|now r];
    cbn [step handle_event]; try exact Hok.
  - destruct (button =? 1); [|exact Hok]. unfold handle_mouse_down.
    destruct (collidepoint new_game_button pos).
    { apply selection_ok_none. apply reset_game_fields. }
    destruct (negb (game_over g) && collidepoint resign_button pos).
    { pose proof (resign_game_keeps g) as K. cbv zeta in K.
      destruct K as (Kpc & _ & Kb & Ks & Kt & _).
      intros s Hs. unfold owned_by_player.
      rewrite Kb, Kpc, Kt. rewrite Ks in Hs. exact (Hok s Hs). }
    unfold board_interaction.
    destruct (Bool.eqb (current_turn g) (player_color g)) eqn:Hturn;
      [|exact Hok].
    apply eqb_prop in Hturn.
    destruct (negb (game_over g)); [|exact Hok]. cbn [andb].
    destruct (get_square_from_mouse (player_color g) pos) as [clicked|].
    + now apply click_square_selection_ok.
    + apply selection_ok_none. now destruct g.
  - unfold ai_move_timing.
    destruct (ai_move_trigger_time g) as [t|]; [|exact Hok].
    destruct (negb (game_over g)); [|exact Hok]. cbn [andb].
    destruct (Bool.eqb (current_turn g) (player_color g)) eqn:Hturn;
      [exact Hok|]. cbn [negb andb].
    destruct (is_some (engine g)); [|exact Hok].
    destruct (now - t >=? AI_MOVE_DELAY); [|exact Hok].
    apply selection_ok_none.
    assert (Hnone : selected_square g = None).
    { destruct (selected_square g) as [s|] eqn:Hs; [|reflexivity].
      destruct (Hok s Hs) as [_ Ht]. rewrite Ht in Hturn.
      now rewrite eqb_reflx in Hturn. }
    unfold make_ai_move.
    destruct (is_some (engine g)
              && negb (Bool.eqb (turn (board g)) (player_color g))
              && negb (game_over g)) eqn:Hguard; [|exact Hnone].
    destruct (reply_fails r) eqn:Hr.
    + pose proof (make_ai_move_fails r g Hguard Hr) as K. cbv zeta in K.
      unfold make_ai_move in K. rewrite Hguard in K.
      destruct K as (_ & Ks & _). now rewrite Ks.
    + destruct r as [[m|]| |]; try discriminate Hr.
      cbn [reply_fails] in Hr. apply negb_false_iff in Hr.
      pose proof (make_ai_move_moves m g Hguard Hr) as K. cbv zeta in K.
      unfold make_ai_move in K. rewrite Hguard in K.
      destruct K as (_ & Ks & _). now rewrite Ks.
Qed.

Lemma steps_selection_ok (l : list Step) (g : Game) :
  selection_ok g -> selection_ok (steps l g).
Proof.
  revert g. induction l as [|st l IH]; intros g Hok; [exact Hok|].
  cbn [steps fold_left]. apply IH. now apply step_selection_ok.
Qed.

End GameLoop.

(** ** Selection, resignation and the click semantics *)

Section Coordination.
Context {R : Rules}.

Lemma owned_by_player_piece (g : Game) (s : Square) :
  owned_by_player g s = true ->
  exists p, piece_at (board g) s = Some p /\ color p = player_color g.
Proof.
  unfold owned_by_player. destruct (piece_at (board g) s) as [p|]; [|discriminate].
  intros H. exists p. split; [reflexivity|]. now apply eqb_prop.
Qed.

(** The two selecting branches of the click handler: a square that becomes
    selected is the clicked one and holds a piece of the player. *)
Lemma click_square_selects_owned (ticks : Z) (clicked s : Square) (g : Game) :
  selected_square (click_square ticks clicked g) = Some s ->
  selected_square g <> Some s ->
  s = clicked /\ owned_by_player g clicked = true.
Proof.
  unfold click_square. destruct (selected_square g) as [sel|] eqn:Hsel.
  - destruct (is_legal (board g) (attempted_move g sel clicked)).
    + pose proof (apply_player_move_fields ticks (attempted_move g sel clicked) g)
        as K. cbv zeta in K. destruct K as (_ & Ks & _). congruence.
    + destruct (clicked =? sel); [destruct g; discriminate|].
      destruct (owned_by_player g clicked) eqn:Hown; [|congruence].
      destruct g; fields. intros H _. inversion H. now split.
  - destruct (owned_by_player g clicked) eqn:Hown; [|destruct g; discriminate].
    destruct g; fields. intros H _. inversion H. now split.
Qed.

Lemma resign_game_result (g : Game) :
  game_over g = false ->
  game_over (resign_game g) = true
  /\ game_result_message (resign_game g)
     = Some (color_name (negb (player_color g)) ++ " Wins by Resignation")%string.
Proof.
  intros H. unfold resign_game. rewrite H. destruct g. fields.
  destruct player_color0; cbn; split; reflexivity.
Qed.

(** C3.  Along every sequence of events and timing checks, from any state
    with no square selected (whatever its position), a selected square holds
    a piece of the human player's colour; and the click handler, in its
    initial-selection and its re-selection branch alike, newly selects a
    square only when the clicked square holds such a piece. *)
Theorem selection_never_opponent (g0 : Game) (l : list Step) :
  selected_square g0 = None ->
  match selected_square (steps l g0) with
  | Some s => exists p, piece_at (board (steps l g0)) s = Some p
                        /\ color p = player_color (steps l g0)
  | None => True
  end
  /\ forall ticks clicked s,
      selected_square (click_square ticks clicked (steps l g0)) = Some s ->
      selected_square (steps l g0) <> Some s ->
      s = clicked /\ owned_by_player (steps l g0) clicked = true.
Proof.
  intros H0. split.
  - pose proof (steps_selection_ok l g0 (selection_ok_none g0 H0)) as Hok.
    destruct (selected_square (steps l g0)) as [s|] eqn:Hs; [|exact I].
    apply owned_by_player_piece. apply (Hok s Hs).
  - intros ticks clicked s. apply click_square_selects_owned.
Qed.

(** C5.  Resigning a game that is not over flags it over, names the colour
    opposite the player as winner by resignation and leaves the board alone;
    from then on, until "New Game" is clicked, no event and no timing check
    changes the state, and the board handler ignores every click. *)
Theorem resign_game_ends_play (g : Game) (l : list Step) :
  game_over g = false -> no_reset l = true ->
  game_over (resign_game g) = true
  /\ game_result_message (resign_game g)
     = Some (color_name (negb (player_color g)) ++ " Wins by Resignation")%string
  /\ board (resign_game g) = board g
  /\ steps l (resign_game g) = resign_game g
  /\ forall ticks pos,
      board_interaction ticks pos (steps l (resign_game g)) = resign_game g.
Proof.
  intros Hover Hl. destruct (resign_game_result g Hover) as [H1 H2].
  pose proof (steps_when_over l _ H1 Hl) as Hfrozen.
  repeat split; try assumption.
  - apply resign_game_keeps.
  - intros ticks pos. rewrite Hfrozen. unfold board_interaction.
    rewrite H1. now rewrite andb_false_r.
Qed.

(** C7.  A trigger still armed when the player resigns is not cleared by
    [resign_game], yet it never fires: until "New Game" is clicked the frame's
    timing check does nothing, [make_ai_move] itself would do nothing, the
    board stays as it was and the engine is not called. *)
Theorem armed_trigger_dead_after_resign
        (g : Game) (t : Z) (l : list Step) (now : Z) (r : PlayReply) :
  game_over g = false -> ai_move_trigger_time g = Some t ->
  no_reset l = true ->
  ai_move_trigger_time (resign_game g) = Some t
  /\ ai_move_timing now r (steps l (resign_game g)) = steps l (resign_game g)
  /\ make_ai_move r (steps l (resign_game g)) = steps l (resign_game g)
  /\ board (steps l (resign_game g)) = board g
  /\ engine_calls (steps l (resign_game g)) = engine_calls g.
Proof.
  intros Hover Ht Hl. destruct (resign_game_result g Hover) as [H1 _].
  rewrite (steps_when_over l _ H1 Hl).
  pose proof (resign_game_keeps g) as K. cbv zeta in K.
  destruct K as (_ & _ & Kb & _ & _ & Kt & Kc).
  repeat split.
  - congruence.
  - exact (step_when_over _ (StepTiming now r) H1 eq_refl).
  - apply make_ai_move_guard_fails. rewrite H1. apply andb_false_r.
  - exact Kb.
  - exact Kc.
Qed.

End Coordination.

Section ClickSemantics.
Context {R : Rules}.

Lemma PieceType_eqb_eq (a b : PieceType) :
  PieceType_eqb a b = true <-> a = b.
Proof. destruct a, b; cbn; split; congruence. Qed.

Lemma attempted_move_promotion (g : Game) (sel clicked : Square) :
  (promotion (attempted_move g sel clicked) = Some QUEEN
   <-> pawn_reaches_last_rank g sel clicked)
  /\ (promotion (attempted_move g sel clicked) = None
      <-> ~ pawn_reaches_last_rank g sel clicked).
Proof.
  unfold attempted_move, pawn_reaches_last_rank. cbn [promotion].
  destruct (piece_at (board g) sel) as [p|].
  2:{ split; split; try discriminate; try reflexivity.
      - intros (p & Hp & _). discriminate.
      - intros _ (p & Hp & _). discriminate. }
  destruct (PieceType_eqb (piece_type p) PAWN) eqn:Hk; cbn [andb].
  2:{ assert (piece_type p <> PAWN)
        by (intros E; apply PieceType_eqb_eq in E; congruence).
      split; split; try discriminate; try reflexivity.
      - intros (q & Hq & Hpawn & _). congruence.
      - intros _ (q & Hq & Hpawn & _). congruence. }
  apply PieceType_eqb_eq in Hk.
  destruct (player_color g); cbn [Bool.eqb WHITE BLACK andb orb].
  - rewrite orb_false_r. destruct (square_rank clicked =? 7) eqn:Hr.
    + apply Z.eqb_eq in Hr. split; split; try discriminate; try reflexivity.
      * intros _. exists p. now repeat split.
      * intros N. exfalso. apply N. exists p. now repeat split.
    + apply Z.eqb_neq in Hr. split; split; try discriminate; try reflexivity.
      * intros (q & _ & _ & Hq). congruence.
      * intros _ (q & _ & _ & Hq). congruence.
  - destruct (square_rank clicked =? 0) eqn:Hr.
    + apply Z.eqb_eq in Hr. split; split; try discriminate; try reflexivity.
      * intros _. exists p. now repeat split.
      * intros N. exfalso. apply N. exists p. now repeat split.
    + apply Z.eqb_neq in Hr. split; split; try discriminate; try reflexivity.
      * intros (q & _ & _ & Hq). congruence.
      * intros _ (q & _ & _ & Hq). congruence.
Qed.

Lemma board_interaction_click (ticks : Z) (pos : Z * Z) (clicked : Square)
      (g : Game) :
  current_turn g = player_color g -> game_over g = false ->
  get_square_from_mouse (player_color g) pos = Some clicked ->
  board_interaction ticks pos g = click_square ticks clicked g.
Proof.
  intros Hturn Hover Hpos. unfold board_interaction.
  rewrite Hturn, eqb_reflx, Hover, Hpos. reflexivity.
Qed.

Lemma click_square_legal (ticks : Z) (sel clicked : Square) (g : Game) :
  selected_square g = Some sel ->
  is_legal (board g) (attempted_move g sel clicked) = true ->
  click_square ticks clicked g
  = apply_player_move ticks (attempted_move g sel clicked) g.
Proof. intros Hsel Hlegal. unfold click_square. now rewrite Hsel, Hlegal. Qed.

(** C2, as the code has it.  A click on a board square while a square is
    selected, on the human's turn of a game not over, attempts the move from
    the selected to the clicked square, promoted to a queen exactly when the
    selected piece is a pawn and the clicked square is on the player's last
    rank.  A legal move is applied and the selection cleared.  Otherwise a
    click on the selected square clears the selection, a click on another
    square holding a piece of the player moves the selection there, and any
    other click leaves the whole state, selection included, as it was. *)
Theorem click_with_selection
        (g : Game) (ticks : Z) (pos : Z * Z) (sel clicked : Square) :
  current_turn g = player_color g -> game_over g = false ->
  selected_square g = Some sel ->
  get_square_from_mouse (player_color g) pos = Some clicked ->
  let move := attempted_move g sel clicked in
  let g' := board_interaction ticks pos g in
  from_square move = sel /\ to_square move = clicked
  /\ (promotion move = Some QUEEN <-> pawn_reaches_last_rank g sel clicked)
  /\ (promotion move = None <-> ~ pawn_reaches_last_rank g sel clicked)
  /\ (is_legal (board g) move = true ->
      board g' = push (board g) move /\ selected_square g' = None)
  /\ (is_legal (board g) move = false -> clicked = sel ->
      g' = set_selected_square None g)
  /\ (is_legal (board g) move = false -> clicked <> sel ->
      owned_by_player g clicked = true ->
      g' = set_selected_square (Some clicked) g)
  /\ (is_legal (board g) move = false -> clicked <> sel ->
      owned_by_player g clicked = false ->
      g' = g /\ selected_square g' = Some sel).
Proof.
  intros Hturn Hover Hsel Hpos move g'.
  assert (Hg' : g' = click_square ticks clicked g)
    by (subst g'; now apply board_interaction_click).
  destruct (attempted_move_promotion g sel clicked) as [Hq Hn].
  split; [reflexivity|]. split; [reflexivity|].
  split; [exact Hq|]. split; [exact Hn|].
  rewrite Hg'. unfold click_square. rewrite Hsel. fold move.
  split; [|split; [|split]].
  - intros ->. split; apply apply_player_move_fields.
  - intros -> E. apply Z.eqb_eq in E. now rewrite E.
  - intros -> E Hown. apply Z.eqb_neq in E. now rewrite E, Hown.
  - intros -> E Hown. apply Z.eqb_neq in E. rewrite E, Hown. now split.
Qed.

End ClickSemantics.

(** ** Playing without an engine *)

Section WithoutEngine.
Context {R : Rules}.

Lemma reset_game_without_engine (start : bool) (ticks : Z) (g : Game) :
  engine g = None -> engine_calls g = [] ->
  engine_silent (reset_game start false ticks g).
Proof.
  unfold engine_silent. destruct g. cbv [reset_game]. fields.
  intros -> ->. destruct start; split_ifs; repeat split.
  all: rewrite andb_false_r in *; discriminate.
Qed.

Lemma click_square_without_engine (ticks : Z) (clicked : Square) (g : Game) :
  engine_silent g -> engine_silent (click_square ticks clicked g).
Proof.
  unfold engine_silent. intros (He & Ht & Hc). unfold click_square.
  destruct (selected_square g) as [sel|].
  - destruct (is_legal (board g) (attempted_move g sel clicked)).
    + pose proof (apply_player_move_fields ticks
                    (attempted_move g sel clicked) g) as K.
      cbv zeta in K. destruct K as (_ & _ & _ & _ & Ke & _ & _ & Kt & Kc).
      rewrite Ke, Kt, Kc, He, Ht, Hc. rewrite andb_false_r. now repeat split.
    + destruct (clicked =? sel); [now destruct g|].
      destruct (owned_by_player g clicked); [now destruct g|now repeat split].
  - destruct (owned_by_player g clicked); now destruct g.
Qed.

Lemma board_interaction_without_engine (ticks : Z) (pos : Z * Z) (g : Game) :
  engine_silent g -> engine_silent (board_interaction ticks pos g).
Proof.
  intros Hq. unfold board_interaction.
  destruct (Bool.eqb (current_turn g) (player_color g) && negb (game_over g));
    [|exact Hq].
  destruct (get_square_from_mouse (player_color g) pos) as [clicked|].
  - now apply click_square_without_engine.
  - now destruct g.
Qed.

Lemma step_without_engine (g : Game) (st : Step) :
  engine_never_starts [st] = true ->
  engine_silent g -> engine_silent (step g st).
Proof.
  intros Hst Hq. destruct st as [[ |button pos ticks ok| ]|now r];
    cbn [step handle_event]; try exact Hq.
  - cbn [engine_never_starts forallb] in Hst. rewrite andb_true_r in Hst.
    destruct (button =? 1); [|exact Hq]. cbn [andb] in Hst.
    unfold handle_mouse_down.
    destruct (collidepoint new_game_button pos).
    { cbn [negb orb] in Hst. apply negb_true_iff in Hst. subst ok.
      destruct Hq as (He & _ & Hc). now apply reset_game_without_engine. }
    destruct (negb (game_over g) && collidepoint resign_button pos).
    { pose proof (resign_game_keeps g) as K. cbv zeta in K.
      destruct K as (_ & Ke & _ & _ & _ & Kt & Kc).
      unfold engine_silent. rewrite Ke, Kt, Kc. exact Hq. }
    now apply board_interaction_without_engine.
  - unfold ai_move_timing. destruct Hq as (He & Ht & Hc). rewrite Ht.
    now repeat split.
Qed.

Lemma steps_without_engine (l : list Step) (g : Game) :
  engine_never_starts l = true ->
  engine_silent g -> engine_silent (steps l g).
Proof.
  revert g. induction l as [|st l IH]; intros g Hl Hq; [exact Hq|].
  cbn [engine_never_starts forallb] in Hl.
  apply andb_true_iff in Hl as [Hst Hl].
  cbn [steps fold_left]. apply IH; [exact Hl|].
  apply step_without_engine; [|exact Hq].
  cbn [engine_never_starts forallb]. now rewrite Hst.
Qed.

Lemma startup_without_engine (skill : Z) (pc : Color) (ticks : Z) :
  engine_silent (startup skill pc false ticks).
Proof. unfold startup. now apply reset_game_without_engine. Qed.

(** C6, as the code has it.  When the engine cannot be started, at launch
    and at each later "New Game" click (which tries again), every state that
    follows has no engine handle, no armed trigger and no engine call, both
    after a human move and after a reset with the human playing Black; and a
    legal move attempted on the human's turn is applied as usual. *)
Theorem without_engine_no_trigger
        (skill : Z) (pc : Color) (ticks0 : Z) (l : list Step) :
  engine_never_starts l = true ->
  let g := steps l (startup skill pc false ticks0) in
  engine g = None /\ ai_move_trigger_time g = None /\ engine_calls g = []
  /\ forall ticks pos sel clicked,
      current_turn g = player_color g -> game_over g = false ->
      selected_square g = Some sel ->
      get_square_from_mouse (player_color g) pos = Some clicked ->
      is_legal (board g) (attempted_move g sel clicked) = true ->
      let g' := board_interaction ticks pos g in
      board g' = push (board g) (attempted_move g sel clicked)
      /\ engine g' = None /\ ai_move_trigger_time g' = None
      /\ engine_calls g' = [].
Proof.
  intros Hl g.
  pose proof (steps_without_engine l _ Hl (startup_without_engine skill pc ticks0))
    as Hq. fold g in Hq.
  split; [apply Hq|]. split; [apply Hq|]. split; [apply Hq|].
  intros ticks pos sel clicked Hturn Hover Hsel Hpos Hlegal g'.
  split.
  - subst g'. rewrite (board_interaction_click ticks pos clicked g Hturn Hover Hpos).
    rewrite (click_square_legal ticks sel clicked g Hsel Hlegal).
    apply apply_player_move_fields.
  - apply (board_interaction_without_engine ticks pos g Hq).
Qed.

End WithoutEngine.

(** ** The engine's turn *)

Section EngineTurn.
Context {R : Rules} {L : RulesLaws R}.

Lemma to_move_of_legal (g : Game) (sel clicked : Square) :
  owned_by_player g sel = true ->
  is_legal (board g) (attempted_move g sel clicked) = true ->
  turn (board g) = player_color g.
Proof.
  intros Hown Hlegal.
  destruct (legal_moves_own_piece _ _ Hlegal) as (p & Hp & Hc).
  change (from_square (attempted_move g sel clicked)) with sel in Hp.
  destruct (owned_by_player_piece g sel Hown) as (q & Hq & Hqc).
  congruence.
Qed.

Lemma flags_ok_same (g g' : Game) :
  board g' = board g -> current_turn g' = current_turn g ->
  player_color g' = player_color g -> game_over g' = game_over g ->
  game_result_message g' = game_result_message g ->
  flags_ok g -> flags_ok g'.
Proof.
  intros Hb Ht Hp Ho Hm [F1 F2 F3].
  split; rewrite ?Hb, ?Ht, ?Hp, ?Ho, ?Hm; assumption.
Qed.

Lemma reset_game_flags_ok (start ok : bool) (ticks : Z) (g : Game) :
  flags_ok (reset_game start ok ticks g).
Proof.
  pose proof (reset_game_fields start ok ticks g) as K. cbv zeta in K.
  destruct K as (Kb & _ & Kt & Ko & Km & _).
  split; rewrite ?Kb, ?Kt; intros; try assumption.
  - rewrite new_board_turn. assumption.
  - apply new_board_not_over.
Qed.

Lemma resign_game_flags_ok (g : Game) :
  flags_ok g -> flags_ok (resign_game g).
Proof.
  intros F. destruct (game_over g) eqn:Hover.
  - unfold resign_game. now rewrite Hover.
  - destruct (resign_game_result g Hover) as [H1 _].
    pose proof (resign_game_keeps g) as K. cbv zeta in K.
    destruct K as (Kp & _ & Kb & _ & Kt & _).
    split; rewrite ?Kb, ?Kt, ?Kp, ?H1; try discriminate. apply F.
Qed.

Lemma apply_player_move_flags_ok (ticks : Z) (g : Game) (sel clicked : Square) :
  owned_by_player g sel = true -> game_over g = false ->
  is_legal (board g) (attempted_move g sel clicked) = true ->
  flags_ok g ->
  flags_ok (apply_player_move ticks (attempted_move g sel clicked) g).
Proof.
  intros Hown Hover Hlegal F.
  pose proof (to_move_of_legal g sel clicked Hown Hlegal) as Hturn.
  pose proof (apply_player_move_fields ticks (attempted_move g sel clicked) g)
    as K. cbv zeta in K.
  destruct K as (Kb & _ & Kt & Kp & _ & Ko & Km & _).
  split; rewrite ?Kb, ?Kt, ?Kp, ?Ko, ?Km.
  - intros _. rewrite push_turn, Hturn. now destruct (player_color g).
  - trivial.
  - intros ->. now apply F.
Qed.

Lemma click_square_flags_ok (ticks : Z) (clicked : Square) (g : Game) :
  game_over g = false -> selection_ok g -> flags_ok g ->
  flags_ok (click_square ticks clicked g).
Proof.
  intros Hover Hsel F. unfold click_square.
  destruct (selected_square g) as [sel|] eqn:Hs.
  - destruct (is_legal (board g) (attempted_move g sel clicked)) eqn:Hlegal.
    + apply apply_player_move_flags_ok; try assumption. now apply Hsel.
    + destruct (clicked =? sel);
        [apply (flags_ok_same g); try assumption; now destruct g|].
      destruct (owned_by_player g clicked); [|exact F].
      apply (flags_ok_same g); try assumption; now destruct g.
  - destruct (owned_by_player g clicked);
      apply (flags_ok_same g); try assumption; now destruct g.
Qed.

Lemma make_ai_move_flags_ok (r : PlayReply) (g : Game) :
  flags_ok g -> flags_ok (make_ai_move r g).
Proof.
  intros F.
  destruct (is_some (engine g)
            && negb (Bool.eqb (turn (board g)) (player_color g))
            && negb (game_over g)) eqn:Hguard.
  2:{ now rewrite make_ai_move_guard_fails. }
  assert (Hover : game_over g = false).
  { apply andb_true_iff in Hguard as [_ H]. now apply negb_true_iff in H. }
  destruct (reply_fails r) eqn:Hr.
  - pose proof (make_ai_move_fails r g Hguard Hr) as K. cbv zeta in K.
    destruct K as (Kb & _ & Kp & _ & _ & _ & K).
    destruct r as [mv| |].
    + destruct K as (Ko & Kt & Km).
      split; rewrite ?Kb, ?Kp, ?Ko, ?Kt, ?Km.
      * destruct (is_game_over (board g)); [apply F|congruence].
      * trivial.
      * intros ->. now apply F.
    + destruct K as (Ko & Kt & Km).
      split; rewrite ?Kb, ?Kp, ?Ko, ?Kt, ?Km; try apply F. congruence.
    + destruct K as (Ko & Kt & Km).
      split; rewrite ?Kb, ?Kp, ?Ko, ?Kt, ?Km; try apply F. congruence.
  - destruct r as [[m|]| |]; try discriminate Hr.
    cbn [reply_fails] in Hr. apply negb_false_iff in Hr.
    pose proof (make_ai_move_moves m g Hguard Hr) as K. cbv zeta in K.
    destruct K as (Kb & _ & Kt & Kp & _ & Ko & Km & _).
    split; rewrite ?Kb, ?Kp, ?Ko, ?Kt, ?Km.
    + congruence.
    + trivial.
    + intros ->. now apply F.
Qed.

Lemma step_flags_ok (g : Game) (st : Step) :
  selection_ok g -> flags_ok g -> flags_ok (step g st).
Proof.
  intros Hsel F. destruct st as [[ |button pos ticks ok| ]|now r];
    cbn [step handle_event]; try exact F.
  - destruct (button =? 1); [|exact F]. unfold handle_mouse_down.
    destruct (collidepoint new_game_button pos);
      [apply reset_game_flags_ok|].
    destruct (negb (game_over g) && collidepoint resign_button pos);
      [now apply resign_game_flags_ok|].
    unfold board_interaction.
    destruct (Bool.eqb (current_turn g) (player_color g)); [|exact F].
    destruct (game_over g) eqn:Hover; [exact F|]. cbn [negb andb].
    destruct (get_square_from_mouse (player_color g) pos) as [clicked|].
    + now apply click_square_flags_ok.
    + apply (flags_ok_same g); try assumption; now destruct g.
  - unfold ai_move_timing.
    destruct (ai_move_trigger_time g) as [t|]; [|exact F].
    destruct (negb (game_over g)
              && negb (Bool.eqb (current_turn g) (player_color g))
              && is_some (engine g)); [|exact F].
    destruct (now - t >=? AI_MOVE_DELAY); [|exact F].
    now apply make_ai_move_flags_ok.
Qed.

(** Every state of a run has a sound selection and flags that agree with
    the board. *)
Lemma reachable_ok (g : Game) :
  reachable g -> selection_ok g /\ flags_ok g.
Proof.
  intros (skill & pc & ok & ticks & l & ->).
  assert (H0 : selection_ok (startup skill pc ok ticks)
               /\ flags_ok (startup skill pc ok ticks)).
  { unfold startup. split.
    - apply selection_ok_none. apply reset_game_fields.
    - apply reset_game_flags_ok. }
  revert H0. generalize (startup skill pc ok ticks).
  induction l as [|st l IH]; intros g [Hs Hf]; [now split|].
  cbn [steps fold_left]. apply IH. split.
  - now apply step_selection_ok.
  - now apply step_flags_ok.
Qed.

(** On a state of a run, the frame's timing guard implies the guard of
    [make_ai_move]. *)
Lemma timing_guard_implies_move_guard (g : Game) (e : SimpleEngine) :
  reachable g -> game_over g = false ->
  current_turn g <> player_color g -> engine g = Some e ->
  is_some (engine g) && negb (Bool.eqb (turn (board g)) (player_color g))
  && negb (game_over g) = true.
Proof.
  intros Hr Hover Hturn He. destruct (reachable_ok g Hr) as [_ F].
  rewrite He, Hover. cbn [is_some negb andb]. rewrite andb_true_r.
  apply negb_true_iff. apply eqb_false_iff. now apply F.
Qed.

Lemma timing_check_fires (g : Game) (e : SimpleEngine) (t now : Z)
      (r : PlayReply) :
  game_over g = false -> current_turn g <> player_color g ->
  engine g = Some e -> ai_move_trigger_time g = Some t ->
  AI_MOVE_DELAY <= now - t ->
  ai_move_timing now r g = make_ai_move r g.
Proof.
  intros Hover Hturn He Ht Hd. unfold ai_move_timing.
  rewrite Ht, Hover, He. apply eqb_false_iff in Hturn. rewrite Hturn.
  cbn [negb andb is_some]. apply Z.geb_le in Hd. now rewrite Hd.
Qed.

(** C1.  On every state of a run in which the game is not over, the turn
    flag is the engine's, an engine is available and the armed trigger is at
    least [AI_MOVE_DELAY] old, a frame whose engine call returns a move calls
    the engine exactly once, on the current board, pushes that move, gives
    the turn flag back to the human, recomputes the game-over flag and the
    result message from the new board, and clears the trigger. *)
Theorem engine_move_on_elapsed_trigger
        (g : Game) (e : SimpleEngine) (t clock : Z) (m : Move) :
  reachable g -> game_over g = false ->
  current_turn g <> player_color g -> engine g = Some e ->
  ai_move_trigger_time g = Some t -> AI_MOVE_DELAY <= clock - t ->
  move_bool m = true ->
  let g' := frame g (mkFrame [] clock (PlayResult (Some m))) in
  engine_calls g' = (engine_calls g ++ [board g])%list
  /\ board g' = push (board g) m
  /\ current_turn g' = player_color g
  /\ game_over g' = is_game_over (board g')
  /\ game_result_message g' = determine_game_outcome (board g')
  /\ ai_move_trigger_time g' = None.
Proof.
  intros Hr Hover Hturn He Ht Hd Hm g'.
  assert (Hg' : g' = make_ai_move (PlayResult (Some m)) g).
  { subst g'. unfold frame. cbn [events now reply fold_left].
    now apply (timing_check_fires g e t). }
  pose proof (timing_guard_implies_move_guard g e Hr Hover Hturn He) as Hguard.
  pose proof (make_ai_move_moves m g Hguard Hm) as K. cbv zeta in K.
  rewrite <- Hg' in K.
  destruct K as (Kb & _ & Kt & _ & _ & Ko & Km & Ktr & Kc).
  destruct (reachable_ok g Hr) as [_ F].
  repeat split; try assumption.
  - now rewrite Kb.
  - rewrite Km, Kb. unfold determine_game_outcome.
    destruct (is_game_over (push (board g) m)); [reflexivity|].
    now apply F.
Qed.

Lemma handed_back_same (g g' : Game) :
  board g' = board g -> current_turn g' = current_turn g ->
  player_color g' = player_color g ->
  ai_move_trigger_time g' = ai_move_trigger_time g ->
  engine_calls g' = engine_calls g ->
  handed_back g ->
  handed_back g' /\ board g' = board g /\ engine_calls g' = engine_calls g.
Proof.
  intros Hb Ht Hp Htr Hc (H1 & H2 & H3). unfold handed_back.
  rewrite Hb, Ht, Hp, Htr. now repeat split.
Qed.

(** After a failed engine call no click can move a piece: the player's
    pieces are not the side to move on the board. *)
Lemma click_square_handed_back (ticks : Z) (clicked : Square) (g : Game) :
  selection_ok g -> handed_back g ->
  handed_back (click_square ticks clicked g)
  /\ board (click_square ticks clicked g) = board g
  /\ engine_calls (click_square ticks clicked g) = engine_calls g.
Proof.
  intros Hsel Hb. unfold click_square.
  destruct (selected_square g) as [sel|] eqn:Hs.
  - destruct (is_legal (board g) (attempted_move g sel clicked)) eqn:Hlegal.
    + exfalso. destruct Hb as (_ & Hturn & _). apply Hturn.
      apply (to_move_of_legal g sel clicked); [now apply Hsel|exact Hlegal].
    + destruct (clicked =? sel);
        [apply handed_back_same; try assumption; now destruct g|].
      destruct (owned_by_player g clicked);
        [apply handed_back_same; try assumption; now destruct g|].
      split; [exact Hb|split; reflexivity].
  - destruct (owned_by_player g clicked);
      apply handed_back_same; try assumption; now destruct g.
Qed.

Lemma step_handed_back (g : Game) (st : Step) :
  selection_ok g -> handed_back g -> is_new_game_click st = false ->
  handed_back (step g st) /\ board (step g st) = board g
  /\ engine_calls (step g st) = engine_calls g.
Proof.
  intros Hsel Hb Hst. destruct st as [[ |button pos ticks ok| ]|clock r];
    cbn [step handle_event];
    try (split; [exact Hb|split; reflexivity]).
  - cbn [is_new_game_click] in Hst.
    destruct (button =? 1); [|split; [exact Hb|split; reflexivity]].
    cbn [andb] in Hst.
    unfold handle_mouse_down. rewrite Hst.
    destruct (negb (game_over g) && collidepoint resign_button pos).
    { pose proof (resign_game_keeps g) as K. cbv zeta in K.
      destruct K as (Kp & _ & Kb & _ & Kt & Ktr & Kc).
      now apply handed_back_same. }
    unfold board_interaction.
    destruct (Bool.eqb (current_turn g) (player_color g) && negb (game_over g));
      [|split; [exact Hb|split; reflexivity]].
    destruct (get_square_from_mouse (player_color g) pos) as [clicked|].
    + now apply click_square_handed_back.
    + apply handed_back_same; try assumption; now destruct g.
  - unfold ai_move_timing.
    replace (ai_move_trigger_time g) with (@None Z) by (symmetry; apply Hb).
    split; [exact Hb|split; reflexivity].
Qed.

Lemma steps_handed_back (l : list Step) (g : Game) :
  selection_ok g -> handed_back g -> no_reset l = true ->
  board (steps l g) = board g /\ engine_calls (steps l g) = engine_calls g.
Proof.
  revert g. induction l as [|st l IH]; intros g Hsel Hb Hl; [now split|].
  cbn [no_reset forallb] in Hl. apply andb_true_iff in Hl as [Hst Hl].
  apply negb_true_iff in Hst.
  destruct (step_handed_back g st Hsel Hb Hst) as (Hb' & Kb & Kc).
  cbn [steps fold_left].
  destruct (IH (step g st) (step_selection_ok g st Hsel) Hb' Hl) as [I1 I2].
  fold (steps l (step g st)). split; congruence.
Qed.

(** C4.  On every state of a run where the timing check fires, an engine
    call that returns no move, or raises, is made once; the turn flag goes
    back to the human, the trigger is cleared and the board is unchanged; and
    however the loop goes on, short of a "New Game" click, the engine is not
    called again and the board stays the same. *)
Theorem engine_failure_hands_turn_back
        (g : Game) (e : SimpleEngine) (t clock : Z) (r : PlayReply)
        (l : list Step) :
  reachable g -> game_over g = false ->
  current_turn g <> player_color g -> engine g = Some e ->
  ai_move_trigger_time g = Some t -> AI_MOVE_DELAY <= clock - t ->
  reply_fails r = true -> no_reset l = true ->
  let g' := ai_move_timing clock r g in
  engine_calls g' = (engine_calls g ++ [board g])%list
  /\ current_turn g' = player_color g'
  /\ player_color g' = player_color g
  /\ ai_move_trigger_time g' = None
  /\ board g' = board g
  /\ engine_calls (steps l g') = engine_calls g'
  /\ board (steps l g') = board g.
Proof.
  intros Hr Hover Hturn He Ht Hd Hfail Hl g'.
  assert (Hg' : g' = make_ai_move r g).
  { subst g'. now apply (timing_check_fires g e t). }
  pose proof (timing_guard_implies_move_guard g e Hr Hover Hturn He) as Hguard.
  destruct (reachable_ok g Hr) as [Hsel F].
  pose proof (make_ai_move_fails r g Hguard Hfail) as K. cbv zeta in K.
  rewrite <- Hg' in K.
  destruct K as (Kb & Ks & Kp & _ & Ktr & Kc & K).
  assert (Kt : current_turn g' = player_color g).
  { destruct r as [mv| |]; destruct K as (_ & Kt & _); try exact Kt.
    rewrite Kt. now rewrite (over_agrees g F Hover). }
  assert (Hsel' : selection_ok g').
  { apply selection_ok_none. rewrite Ks.
    destruct (selected_square g) as [s|] eqn:E; [|reflexivity].
    destruct (Hsel s E) as [_ Habs]. contradiction. }
  assert (Hb' : handed_back g').
  { unfold handed_back. rewrite Kt, Kp, Kb, Ktr. repeat split.
    now apply F. }
  destruct (steps_handed_back l g' Hsel' Hb' Hl) as [S1 S2].
  repeat split; try assumption; congruence.
Qed.

End EngineTurn.

(** ** The properties at work on the chess fragment *)

Lemma fragment_laws : RulesLaws Fragment.rules.
Proof.
  split.
  - reflexivity.
  - reflexivity.
  - intros b m. cbn [is_legal piece_at turn Fragment.rules].
    unfold Fragment.legal.
    destruct (Fragment.at_square b (from_square m)) as [p|].
    + intros H. apply andb_true_iff in H as [_ H].
      apply andb_true_iff in H as [H _]. apply eqb_prop in H.
      exists p. now split.
    + rewrite andb_false_r. discriminate.
  - reflexivity.
Qed.

Lemma after_e4_reachable : reachable Fragment.after_e4.
Proof.
  exists 0, WHITE, true, 0,
    [StepEvent (Fragment.click (Fragment.centre_for_white Fragment.e2) 10 true);
     StepEvent (Fragment.click (Fragment.centre_for_white Fragment.e4) 20 true)].
  reflexivity.
Qed.

Lemma engine_move_on_elapsed_trigger_witness :
  let g := Fragment.after_e4 in
  let g' := frame g (mkFrame [] 520 (PlayResult (Some Fragment.e7e5))) in
  engine_calls g' = (engine_calls g ++ [board g])%list
  /\ board g' = push (board g) Fragment.e7e5
  /\ current_turn g' = player_color g
  /\ game_over g' = is_game_over (board g')
  /\ game_result_message g' = determine_game_outcome (board g')
  /\ ai_move_trigger_time g' = None.
Proof.
  apply (@engine_move_on_elapsed_trigger Fragment.rules fragment_laws
           Fragment.after_e4 (mkEngine 0) 20 520 Fragment.e7e5).
  - exact after_e4_reachable.
  - reflexivity.
  - vm_compute. discriminate.
  - reflexivity.
  - reflexivity.
  - vm_compute. discriminate.
  - reflexivity.
Defined.

Lemma engine_failure_hands_turn_back_witness :
  let g := Fragment.after_e4 in
  let l := [StepEvent (Fragment.click (Fragment.centre_for_white Fragment.d2) 700 true);
            StepTiming 2000 (PlayResult (Some Fragment.e7e5))] in
  let g' := ai_move_timing 520 EngineError g in
  engine_calls g' = (engine_calls g ++ [board g])%list
  /\ current_turn g' = player_color g'
  /\ player_color g' = player_color g
  /\ ai_move_trigger_time g' = None
  /\ board g' = board g
  /\ engine_calls (steps l g') = engine_calls g'
  /\ board (steps l g') = board g.
Proof.
  apply (@engine_failure_hands_turn_back Fragment.rules fragment_laws
           Fragment.after_e4 (mkEngine 0) 20 520 EngineError).
  - exact after_e4_reachable.
  - reflexivity.
  - vm_compute. discriminate.
  - reflexivity.
  - reflexivity.
  - vm_compute. discriminate.
  - reflexivity.
  - reflexivity.
Defined.

Lemma selection_never_opponent_witness :
  let g0 := Fragment.opening in
  let l := [StepEvent (Fragment.click (Fragment.centre_for_white Fragment.e2) 10 true)] in
  match selected_square (steps l g0) with
  | Some s => exists p, piece_at (board (steps l g0)) s = Some p
                        /\ color p = player_color (steps l g0)
  | None => True
  end
  /\ forall ticks clicked s,
      selected_square (click_square ticks clicked (steps l g0)) = Some s ->
      selected_square (steps l g0) <> Some s ->
      s = clicked /\ owned_by_player (steps l g0) clicked = true.
Proof.
  apply (@selection_never_opponent Fragment.rules Fragment.opening). reflexivity.
Defined.

Lemma resign_game_ends_play_witness :
  let g := Fragment.after_e4 in
  let l := [StepEvent (Fragment.click (Fragment.centre_for_white Fragment.d2) 700 true);
            StepTiming 2000 (PlayResult (Some Fragment.e7e5))] in
  game_over (resign_game g) = true
  /\ game_result_message (resign_game g)
     = Some (color_name (negb (player_color g)) ++ " Wins by Resignation")%string
  /\ board (resign_game g) = board g
  /\ steps l (resign_game g) = resign_game g
  /\ forall ticks pos,
      board_interaction ticks pos (steps l (resign_game g)) = resign_game g.
Proof.
  apply (@resign_game_ends_play Fragment.rules Fragment.after_e4); reflexivity.
Defined.

Lemma armed_trigger_dead_after_resign_witness :
  let g := Fragment.after_e4 in
  let l := [StepTiming 520 (PlayResult (Some Fragment.e7e5))] in
  let r := PlayResult (Some Fragment.e7e5) in
  ai_move_trigger_time (resign_game g) = Some 20
  /\ ai_move_timing 600 r (steps l (resign_game g)) = steps l (resign_game g)
  /\ make_ai_move r (steps l (resign_game g)) = steps l (resign_game g)
  /\ board (steps l (resign_game g)) = board g
  /\ engine_calls (steps l (resign_game g)) = engine_calls g.
Proof.
  apply (@armed_trigger_dead_after_resign Fragment.rules Fragment.after_e4 20);
    reflexivity.
Defined.

Lemma click_with_selection_witness :
  let g := Fragment.pawn_selected in
  let pos := Fragment.centre_for_white Fragment.e4 in
  let move := attempted_move g Fragment.e2 Fragment.e4 in
  let g' := board_interaction 20 pos g in
  from_square move = Fragment.e2 /\ to_square move = Fragment.e4
  /\ (promotion move = Some QUEEN
      <-> pawn_reaches_last_rank g Fragment.e2 Fragment.e4)
  /\ (promotion move = None
      <-> ~ pawn_reaches_last_rank g Fragment.e2 Fragment.e4)
  /\ (is_legal (board g) move = true ->
      board g' = push (board g) move /\ selected_square g' = None)
  /\ (is_legal (board g) move = false -> Fragment.e4 = Fragment.e2 ->
      g' = set_selected_square None g)
  /\ (is_legal (board g) move = false -> Fragment.e4 <> Fragment.e2 ->
      owned_by_player g Fragment.e4 = true ->
      g' = set_selected_square (Some Fragment.e4) g)
  /\ (is_legal (board g) move = false -> Fragment.e4 <> Fragment.e2 ->
      owned_by_player g Fragment.e4 = false ->
      g' = g /\ selected_square g' = Some Fragment.e2).
Proof.
  apply (@click_with_selection Fragment.rules Fragment.pawn_selected 20
           (Fragment.centre_for_white Fragment.e4) Fragment.e2 Fragment.e4);
    reflexivity.
Defined.

(** C2 as stated fails: with the e-pawn selected at the start of a game, a
    click on the empty square e5 attempts the illegal move e2e5; the clicked
    square is neither the selected one nor a square of the player, and the
    selection stays on e2 instead of being cleared. *)
Lemma illegal_click_keeps_selection :
  let g := Fragment.pawn_selected in
  let pos := Fragment.centre_for_white Fragment.e5 in
  let g' := handle_event g (Fragment.click pos 30 true) in
  selected_square g = Some Fragment.e2
  /\ current_turn g = player_color g /\ game_over g = false
  /\ get_square_from_mouse (player_color g) pos = Some Fragment.e5
  /\ is_legal (board g) (attempted_move g Fragment.e2 Fragment.e5) = false
  /\ owned_by_player g Fragment.e5 = false
  /\ selected_square g' = Some Fragment.e2
  /\ selected_square g' <> None.
Proof.
  cbv zeta. repeat split; try reflexivity. vm_compute. discriminate.
Qed.

Lemma without_engine_no_trigger_witness :
  let l := [StepEvent (Fragment.click Fragment.on_new_game 5 false);
            StepEvent (Fragment.click (Fragment.centre_for_white Fragment.e2) 10 true)] in
  let g := steps l (@startup Fragment.rules 0 WHITE false 0) in
  engine g = None /\ ai_move_trigger_time g = None /\ engine_calls g = []
  /\ forall ticks pos sel clicked,
      current_turn g = player_color g -> game_over g = false ->
      selected_square g = Some sel ->
      get_square_from_mouse (player_color g) pos = Some clicked ->
      is_legal (board g) (attempted_move g sel clicked) = true ->
      let g' := board_interaction ticks pos g in
      board g' = push (board g) (attempted_move g sel clicked)
      /\ engine g' = None /\ ai_move_trigger_time g' = None
      /\ engine_calls g' = [].
Proof.
  apply (@without_engine_no_trigger Fragment.rules 0 WHITE 0). reflexivity.
Defined.

(** C6 as stated fails twice.  With the player as Black and an engine that
    did not start, a "New Game" click tries the engine again; if it starts
    this time the trigger is armed and the next timing check calls the engine.
    With the player as White and no engine, the first move e2-e4 is applied,
    the turn flag passes to the absent engine, and the clicks of a second move
    (d2, then d4) change nothing. *)
Lemma engine_restarts_and_play_stalls :
  (let g := Fragment.no_engine_black in
   let g1 := steps [StepEvent (Fragment.click Fragment.on_new_game 50 true)] g in
   let g2 := steps [StepTiming 700 (PlayResult (Some Fragment.e2e4))] g1 in
   engine g = None /\ ai_move_trigger_time g = None
   /\ ai_move_trigger_time g1 = Some 150
   /\ engine_calls g2 = [Fragment.start]
   /\ board g2 = Fragment.play Fragment.start Fragment.e2e4)
  /\ (let h := Fragment.no_engine in
      let h1 := steps [StepEvent (Fragment.click (Fragment.centre_for_white Fragment.e2) 10 true);
                       StepEvent (Fragment.click (Fragment.centre_for_white Fragment.e4) 20 true)] h in
      let h2 := steps [StepEvent (Fragment.click (Fragment.centre_for_white Fragment.d2) 30 true);
                       StepEvent (Fragment.click (Fragment.centre_for_white (square 3 3)) 40 true);
                       StepTiming 5000 (PlayResult (Some Fragment.e7e5))] h1 in
      engine h = None
      /\ board h1 = Fragment.play Fragment.start Fragment.e2e4
      /\ game_over h1 = false
      /\ current_turn h1 = BLACK /\ ai_move_trigger_time h1 = None
      /\ h2 = h1).
Proof.
  cbv zeta. repeat split; reflexivity.
Qed.

(** * Further properties of the code *)

(** ** Drawing and hit-testing agree *)

Lemma square_file_mod (s : Square) : square_file s = s mod 8.
Proof. unfold square_file. change 7 with (Z.ones 3). now rewrite Z.land_ones. Qed.

Lemma square_rank_div (s : Square) : square_rank s = s / 8.
Proof. unfold square_rank. now rewrite Z.shiftr_div_pow2. Qed.

Lemma square_file_rank (f r : Z) :
  0 <= f <= 7 ->
  square_file (square f r) = f /\ square_rank (square f r) = r.
Proof.
  intros Hf. rewrite square_file_mod, square_rank_div. unfold square.
  split; Z.div_mod_to_equations; lia.
Qed.

(** X1.  Clicking anywhere inside the cell where a square is drawn (its
    highlight, its piece) selects that very square, in both orientations. *)
Theorem click_inside_drawn_square
        (pc : Color) (s : Square) (dx dy : Z) :
  0 <= s <= 63 -> 0 <= dx < SQUARE_SIZE -> 0 <= dy < SQUARE_SIZE ->
  get_square_from_mouse pc (fst (square_screen_pos pc s) + dx,
                            snd (square_screen_pos pc s) + dy) = Some s.
Proof.
  intros Hs Hdx Hdy. unfold get_square_from_mouse, square_screen_pos.
  rewrite square_file_mod, square_rank_div.
  unfold in_board, mouse_file, mouse_rank, screen_col, screen_row, square,
    BOARD_WIDTH, BOARD_HEIGHT, BOARD_SIZE, SQUARE_SIZE in *.
  destruct board_origin as [-> ->].
  destruct pc; cbn [Bool.eqb WHITE fst snd].
  - replace ((160 <=? 160 + s mod 8 * 60 + dx)
             && (160 + s mod 8 * 60 + dx <? 160 + 8 * 60)
             && (110 <=? 110 + (8 - 1 - s / 8) * 60 + dy)
             && (110 + (8 - 1 - s / 8) * 60 + dy <? 110 + 8 * 60)) with true.
    2:{ symmetry. rewrite !andb_true_iff, !Z.leb_le, !Z.ltb_lt.
        Z.div_mod_to_equations. lia. }
    cbn [negb]. f_equal. Z.div_mod_to_equations. lia.
  - replace ((160 <=? 160 + (8 - 1 - s mod 8) * 60 + dx)
             && (160 + (8 - 1 - s mod 8) * 60 + dx <? 160 + 8 * 60)
             && (110 <=? 110 + s / 8 * 60 + dy)
             && (110 + s / 8 * 60 + dy <? 110 + 8 * 60)) with true.
    2:{ symmetry. rewrite !andb_true_iff, !Z.leb_le, !Z.ltb_lt.
        Z.div_mod_to_equations. lia. }
    cbn [negb]. f_equal. Z.div_mod_to_equations. lia.
Qed.

Lemma click_inside_drawn_square_witness :
  get_square_from_mouse BLACK (fst (square_screen_pos BLACK 12) + 59,
                               snd (square_screen_pos BLACK 12) + 0) = Some 12.
Proof.
  apply (click_inside_drawn_square BLACK 12 59 0); unfold SQUARE_SIZE; lia.
Defined.

(** X2.  Conversely, the square returned for a click is drawn in a cell that
    contains the click. *)
Theorem clicked_square_is_under_pointer (pc : Color) (x y : Z) (s : Square) :
  get_square_from_mouse pc (x, y) = Some s ->
  collidepoint (mkRect (fst (square_screen_pos pc s))
                       (snd (square_screen_pos pc s))
                       SQUARE_SIZE SQUARE_SIZE) (x, y) = true.
Proof.
  intros H. unfold get_square_from_mouse in H.
  destruct (in_board x y) eqn:Hin; [|discriminate]. cbn [negb] in H.
  injection H as Hs. symmetry in Hs.
  apply in_board_spec in Hin.
  pose proof (mouse_file_range pc x (proj1 Hin)) as Hf.
  destruct (square_file_rank _ (mouse_rank pc y) Hf) as [Ef Er].
  unfold square_screen_pos. rewrite Hs, Ef, Er.
  unfold collidepoint, mouse_file, mouse_rank, screen_col, screen_row,
    BOARD_WIDTH, BOARD_HEIGHT, BOARD_SIZE, SQUARE_SIZE in *.
  destruct board_origin as [Ex Ey]. rewrite Ex, Ey in *.
  destruct pc; cbn [Bool.eqb WHITE fst snd left top width height] in *;
    rewrite !andb_true_iff, !Z.leb_le, !Z.ltb_lt;
    Z.div_mod_to_equations; lia.
Qed.

Lemma clicked_square_is_under_pointer_witness :
  collidepoint (mkRect (fst (square_screen_pos WHITE 12))
                       (snd (square_screen_pos WHITE 12))
                       SQUARE_SIZE SQUARE_SIZE) (430, 500) = true.
Proof.
  apply (clicked_square_is_under_pointer WHITE 430 500 12). reflexivity.
Defined.

(** X3.  Playing Black turns the board by half a turn: the square under a
    point for Black and the square under it for White add up to 63, and the
    two orientations agree on which points are off the board. *)
Theorem orientation_is_half_turn (x y : Z) :
  match get_square_from_mouse WHITE (x, y), get_square_from_mouse BLACK (x, y) with
  | Some w, Some b => w + b = 63
  | None, None => True
  | _, _ => False
  end.
Proof.
  unfold get_square_from_mouse. destruct (in_board x y) eqn:E; cbn [negb];
    [|exact I].
  apply in_board_spec in E. destruct E as [Hx Hy].
  pose proof (screen_col_range x Hx). pose proof (screen_row_range y Hy).
  unfold square, mouse_file, mouse_rank, BOARD_SIZE. cbn [Bool.eqb WHITE BLACK].
  lia.
Qed.

Lemma in_range (n : nat) (z : Z) : In z (range n) <-> 0 <= z < Z.of_nat n.
Proof.
  unfold range. rewrite in_map_iff. split.
  - intros (k & <- & Hk). apply in_seq in Hk. lia.
  - intros H. exists (Z.to_nat z). split; [lia|]. apply in_seq. lia.
Qed.

Lemma in_draw_board (pc : Color) (row col : Z) :
  0 <= row <= 7 -> 0 <= col <= 7 ->
  In ((if is_light pc row col then LIGHT_SQUARE else DARK_SQUARE),
      cell_rect row col) (draw_board pc).
Proof.
  intros Hr Hc. unfold draw_board. apply in_flat_map. exists row. split.
  - apply in_range. cbn. lia.
  - apply in_map_iff. exists col. split; [reflexivity|].
    apply in_range. cbn. lia.
Qed.

Lemma square_screen_pos_cell (pc : Color) (s : Square) :
  0 <= s <= 63 ->
  exists row col, 0 <= row <= 7 /\ 0 <= col <= 7
                  /\ square_screen_pos pc s
                     = (left (cell_rect row col), top (cell_rect row col)).
Proof.
  intros Hs. unfold square_screen_pos, cell_rect. cbn [left top].
  rewrite square_file_mod, square_rank_div.
  assert (Hf : 0 <= s mod 8 <= 7) by (Z.div_mod_to_equations; lia).
  assert (Hr : 0 <= s / 8 <= 7) by (Z.div_mod_to_equations; lia).
  unfold BOARD_SIZE, SQUARE_SIZE.
  destruct pc; cbn [Bool.eqb WHITE].
  - exists (7 - s / 8), (s mod 8). repeat split; try lia.
  - exists (s / 8), (7 - s mod 8). repeat split; try lia.
Qed.

(** X4.  Every piece image is blitted exactly on the top-left corner of one
    of the rectangles [draw_board] fills, under an image key that
    [load_piece_images] created. *)
Theorem pieces_are_drawn_on_board_cells
        {R : Rules} (pc : Color) (b : Board) (loaded : string -> bool)
        (key : string) (pos : Z * Z) :
  In (key, pos) (draw_pieces pc b loaded) ->
  In key piece_symbols
  /\ exists colour cell, In (colour, cell) (draw_board pc)
                         /\ pos = (left cell, top cell).
Proof.
  unfold draw_pieces. intros H. apply in_flat_map in H as (s & Hs & H).
  apply in_range in Hs.
  destruct (piece_at b s) as [piece|]; [|contradiction].
  destruct (image_available loaded (image_key piece)) eqn:Hav; [|contradiction].
  destruct (square_screen_pos pc s) as [sx sy] eqn:Hpos.
  destruct H as [H|[]]. inversion H; subst key pos; clear H.
  split.
  - unfold image_available in Hav. apply andb_true_iff in Hav as [Hav _].
    apply existsb_exists in Hav as (k & Hk & E). apply String.eqb_eq in E.
    now subst k.
  - destruct (square_screen_pos_cell pc s) as (row & col & Hr & Hc & E); [lia|].
    exists (if is_light pc row col then LIGHT_SQUARE else DARK_SQUARE),
      (cell_rect row col).
    split; [now apply in_draw_board|].
    rewrite Hpos in E. apply pair_equal_spec in E as [-> ->].
    change (SQUARE_SIZE / 2) with 30. f_equal; lia.
Qed.

Lemma pieces_are_drawn_on_board_cells_witness :
  In "wP" piece_symbols
  /\ exists colour cell, In (colour, cell) (draw_board WHITE)
                         /\ (400, 470) = (left cell, top cell).
Proof.
  apply (@pieces_are_drawn_on_board_cells Fragment.rules WHITE Fragment.start
           (fun _ => true) "wP" (400, 470)).
  vm_compute. tauto.
Defined.

(** X5.  The squares keep their colour when the board is turned: the list of
    filled rectangles is the same for both players; and the cells alternate,
    a cell being light exactly when its screen row and column have an odd
    sum. *)
Theorem board_colours_do_not_depend_on_orientation (pc : Color) (row col : Z) :
  draw_board pc = draw_board WHITE
  /\ is_light pc row col = ((row + col) mod 2 =? 1).
Proof.
  split.
  - destruct pc; reflexivity.
  - unfold is_light, logical_rank, logical_file, BOARD_SIZE.
    destruct pc; cbn [Bool.eqb WHITE].
    + destruct ((row + col) mod 2 =? 1) eqn:E;
        [apply Z.eqb_eq in E; apply Z.eqb_eq
        |apply Z.eqb_neq in E; apply Z.eqb_neq];
        Z.div_mod_to_equations; lia.
    + destruct ((row + col) mod 2 =? 1) eqn:E;
        [apply Z.eqb_eq in E; apply Z.eqb_eq
        |apply Z.eqb_neq in E; apply Z.eqb_neq];
        Z.div_mod_to_equations; lia.
Qed.


(** ** What the loop never does *)

Section LoopNever.
Context {R : Rules}.

Lemma click_square_keeps (ticks : Z) (clicked : Square) (g : Game) :
  player_color (click_square ticks clicked g) = player_color g
  /\ chosen_skill_level (click_square ticks clicked g) = chosen_skill_level g
  /\ engine (click_square ticks clicked g) = engine g
  /\ engine_calls (click_square ticks clicked g) = engine_calls g.
Proof.
  unfold click_square. destruct (selected_square g) as [sel|].
  - destruct (is_legal (board g) (attempted_move g sel clicked)).
    + destruct g. cbv [apply_player_move]. fields.
      destruct (is_game_over (push board0 (attempted_move _ sel clicked))),
        engine0; fields; split_ifs; repeat split.
    + destruct (clicked =? sel); [now destruct g|].
      destruct (owned_by_player g clicked); [now destruct g|now repeat split].
  - destruct (owned_by_player g clicked); now destruct g.
Qed.

Lemma board_interaction_keeps (ticks : Z) (pos : Z * Z) (g : Game) :
  player_color (board_interaction ticks pos g) = player_color g
  /\ chosen_skill_level (board_interaction ticks pos g) = chosen_skill_level g
  /\ engine (board_interaction ticks pos g) = engine g
  /\ engine_calls (board_interaction ticks pos g) = engine_calls g.
Proof.
  unfold board_interaction.
  destruct (Bool.eqb (current_turn g) (player_color g) && negb (game_over g));
    [|now repeat split].
  destruct (get_square_from_mouse (player_color g) pos) as [clicked|].
  - apply click_square_keeps.
  - now destruct g.
Qed.

Lemma reset_game_keeps (start ok : bool) (ticks : Z) (g : Game) :
  player_color (reset_game start ok ticks g) = player_color g
  /\ chosen_skill_level (reset_game start ok ticks g) = chosen_skill_level g
  /\ engine (reset_game start ok ticks g) = engine_after_reset start ok g
  /\ engine_calls (reset_game start ok ticks g) = engine_calls g.
Proof.
  unfold engine_after_reset. destruct g. cbv [reset_game]. fields.
  destruct engine0, start, ok; split_ifs; repeat split.
Qed.

Lemma make_ai_move_keeps (r : PlayReply) (g : Game) :
  player_color (make_ai_move r g) = player_color g
  /\ chosen_skill_level (make_ai_move r g) = chosen_skill_level g
  /\ engine (make_ai_move r g) = engine g.
Proof.
  unfold make_ai_move.
  destruct (is_some (engine g)
            && negb (Bool.eqb (turn (board g)) (player_color g))
            && negb (game_over g)); [|now repeat split].
  destruct r as [[m|]| |]; [destruct (move_bool m)| | |].
  all: destruct g; fields.
  1: destruct (is_game_over (push board0 m)).
  3,4: destruct (is_game_over board0).
  all: fields; split_ifs; repeat split.
Qed.

Lemma ai_move_timing_cases (clock : Z) (r : PlayReply) (g : Game) :
  ai_move_timing clock r g = g
  \/ (exists t, ai_move_trigger_time g = Some t /\ AI_MOVE_DELAY <= clock - t
                /\ game_over g = false /\ current_turn g <> player_color g
                /\ is_some (engine g) = true
                /\ ai_move_timing clock r g = make_ai_move r g).
Proof.
  unfold ai_move_timing. destruct (ai_move_trigger_time g) as [t|]; [|now left].
  destruct (game_over g) eqn:Hover; [now left|].
  destruct (Bool.eqb (current_turn g) (player_color g)) eqn:Hturn; [now left|].
  destruct (is_some (engine g)) eqn:He; [|now left]. cbn [negb andb].
  destruct (clock - t >=? AI_MOVE_DELAY) eqn:Hd; [|now left].
  right. exists t. apply Z.geb_le in Hd. apply eqb_false_iff in Hturn.
  now repeat split.
Qed.

Lemma step_keeps (g : Game) (st : Step) :
  player_color (step g st) = player_color g
  /\ chosen_skill_level (step g st) = chosen_skill_level g
  /\ forall e, engine g = Some e -> engine (step g st) = Some e.
Proof.
  destruct st as [[ |button pos ticks ok| ]|clock r];
    cbn [step handle_event]; try (now repeat split).
  - destruct (button =? 1); [|now repeat split]. unfold handle_mouse_down.
    destruct (collidepoint new_game_button pos).
    { destruct (reset_game_keeps true ok ticks g) as (K1 & K2 & K3 & _).
      repeat split; try assumption. intros e He. rewrite K3.
      unfold engine_after_reset. now rewrite He. }
    destruct (negb (game_over g) && collidepoint resign_button pos).
    { pose proof (resign_game_keeps g) as K. cbv zeta in K.
      destruct K as (K1 & K2 & _). repeat split; try assumption.
      - now destruct g; cbv [resign_game]; fields; split_ifs.
      - intros e He. congruence. }
    destruct (board_interaction_keeps ticks pos g) as (K1 & K2 & K3 & _).
    repeat split; try assumption. intros e He. congruence.
  - destruct (ai_move_timing_cases clock r g) as [->|(t & _ & _ & _ & _ & _ & ->)];
      [now repeat split|].
    destruct (make_ai_move_keeps r g) as (K1 & K2 & K3).
    repeat split; try assumption. intros e He. congruence.
Qed.

Lemma steps_keeps (l : list Step) (g : Game) :
  player_color (steps l g) = player_color g
  /\ chosen_skill_level (steps l g) = chosen_skill_level g
  /\ forall e, engine g = Some e -> engine (steps l g) = Some e.
Proof.
  revert g. induction l as [|st l IH]; intros g; [now repeat split|].
  cbn [steps fold_left]. fold (steps l (step g st)).
  destruct (IH (step g st)) as (I1 & I2 & I3).
  destruct (step_keeps g st) as (K1 & K2 & K3).
  repeat split; try congruence. intros e He. apply I3, K3, He.
Qed.

(** X7.  The colour and skill chosen before the game, and an engine handle
    once there is one, are the same in every later state: the loop never
    swaps sides and never replaces or drops a running engine. *)
Theorem settings_survive_the_loop (l : list Step) (g : Game) :
  player_color (steps l g) = player_color g
  /\ chosen_skill_level (steps l g) = chosen_skill_level g
  /\ forall e, engine g = Some e -> engine (steps l g) = Some e.
Proof. apply steps_keeps. Qed.


Lemma step_engine_calls (g : Game) (st : Step) :
  engine_calls (step g st) = engine_calls g
  \/ (exists clock r t,
         st = StepTiming clock r
         /\ ai_move_trigger_time g = Some t /\ AI_MOVE_DELAY <= clock - t
         /\ game_over g = false /\ current_turn g <> player_color g
         /\ turn (board g) <> player_color g
         /\ engine_calls (step g st) = (engine_calls g ++ [board g])%list
         /\ ai_move_trigger_time (step g st) = None).
Proof.
  destruct st as [[ |button pos ticks ok| ]|clock r];
    cbn [step handle_event]; try now left.
  - left. destruct (button =? 1); [|reflexivity]. unfold handle_mouse_down.
    destruct (collidepoint new_game_button pos); [apply reset_game_keeps|].
    destruct (negb (game_over g) && collidepoint resign_button pos);
      [apply resign_game_keeps|apply board_interaction_keeps].
  - destruct (ai_move_timing_cases clock r g)
      as [->|(t & Ht & Hd & Hover & Hturn & He & ->)]; [now left|].
    destruct (is_some (engine g)
              && negb (Bool.eqb (turn (board g)) (player_color g))
              && negb (game_over g)) eqn:Hguard.
    2:{ left. now rewrite make_ai_move_guard_fails. }
    right. exists clock, r, t.
    assert (Hside : turn (board g) <> player_color g).
    { apply andb_true_iff in Hguard as [Hguard _].
      apply andb_true_iff in Hguard as [_ Hguard].
      apply negb_true_iff in Hguard. now apply eqb_false_iff. }
    destruct (reply_fails r) eqn:Hr.
    + pose proof (make_ai_move_fails r g Hguard Hr) as K. cbv zeta in K.
      destruct K as (_ & _ & _ & _ & Ktr & Kc & _). now repeat split.
    + destruct r as [[m|]| |]; try discriminate Hr.
      cbn [reply_fails] in Hr. apply negb_false_iff in Hr.
      pose proof (make_ai_move_moves m g Hguard Hr) as K. cbv zeta in K.
      destruct K as (_ & _ & _ & _ & _ & _ & _ & Ktr & Kc). now repeat split.
Qed.


End LoopNever.

(** ** What every state of a run satisfies *)

Section RunConditions.
Context {R : Rules}.

Lemma update_ui_text_in_sync (g : Game) : ui_in_sync (update_ui_text g).
Proof.
  unfold ui_in_sync. destruct g. fields.
  destruct (negb game_over0 && is_check board0) eqn:E; fields; rewrite ?E;
    now split.
Qed.

Lemma ui_in_sync_same (g g' : Game) :
  board g' = board g -> game_over g' = game_over g ->
  status_text g' = status_text g -> info_text g' = info_text g ->
  ui_in_sync g -> ui_in_sync g'.
Proof.
  unfold ui_in_sync. intros -> -> -> ->. trivial.
Qed.

Lemma reset_game_post (start ok : bool) (ticks : Z) (g : Game) :
  let g' := reset_game start ok ticks g in
  board g' = new_board /\ selected_square g' = None
  /\ current_turn g' = WHITE /\ game_over g' = false
  /\ game_result_message g' = None
  /\ player_color g' = player_color g
  /\ engine g' = engine_after_reset start ok g
  /\ ai_move_trigger_time g'
     = (if Bool.eqb (player_color g) BLACK
           && is_some (engine_after_reset start ok g)
        then Some (ticks + 100) else None)
  /\ engine_calls g' = engine_calls g
  /\ ui_in_sync g'.
Proof.
  unfold ui_in_sync, engine_after_reset. destruct g. cbv [reset_game]. fields.
  destruct engine0, start, ok, player_color0, (is_check new_board) eqn:E;
    cbn [Bool.eqb BLACK WHITE negb andb is_some]; fields;
    cbn [negb andb]; rewrite ?E; repeat split.
Qed.

(** X10.  [reset_game] starts a fresh game: start position, White to move,
    nothing selected, no result, texts up to date.  A running engine is kept
    and a missing one is started only when asked to and possible; the trigger
    is armed, 100 ms ahead, exactly when the player is Black and an engine is
    then present; the record of engine calls is untouched. *)
Theorem reset_game_starts_fresh (start ok : bool) (ticks : Z) (g : Game) :
  let g' := reset_game start ok ticks g in
  board g' = new_board /\ selected_square g' = None
  /\ current_turn g' = WHITE /\ game_over g' = false
  /\ game_result_message g' = None
  /\ player_color g' = player_color g
  /\ engine g' = engine_after_reset start ok g
  /\ ai_move_trigger_time g'
     = (if Bool.eqb (player_color g) BLACK
           && is_some (engine_after_reset start ok g)
        then Some (ticks + 100) else None)
  /\ engine_calls g' = engine_calls g
  /\ ui_in_sync g'.
Proof. apply reset_game_post. Qed.

Lemma trigger_ok_same (g g' : Game) :
  ai_move_trigger_time g' = ai_move_trigger_time g ->
  engine g' = engine g -> current_turn g' = current_turn g ->
  player_color g' = player_color g ->
  trigger_ok g -> trigger_ok g'.
Proof. unfold trigger_ok. intros -> -> -> ->. trivial. Qed.

Lemma trigger_ok_none (g : Game) :
  ai_move_trigger_time g = None -> trigger_ok g.
Proof. intros H t Ht. congruence. Qed.

Lemma click_square_trigger_ok (ticks : Z) (clicked : Square) (g : Game) :
  current_turn g = player_color g ->
  trigger_ok g -> trigger_ok (click_square ticks clicked g).
Proof.
  intros Hturn Hok.
  assert (Hnone : ai_move_trigger_time g = None).
  { destruct (ai_move_trigger_time g) as [t|] eqn:E; [|reflexivity].
    destruct (Hok t E) as [_ N]. contradiction. }
  unfold click_square. destruct (selected_square g) as [sel|].
  - destruct (is_legal (board g) (attempted_move g sel clicked)).
    + pose proof (apply_player_move_fields ticks
                    (attempted_move g sel clicked) g) as K.
      cbv zeta in K. destruct K as (_ & _ & Kt & Kp & Ke & _ & _ & Ktr & _).
      intros t Ht. rewrite Ktr, Hnone in Ht. rewrite Ke, Kt, Kp.
      destruct (is_some (engine g)); [|rewrite andb_false_r in Ht; discriminate].
      split; [reflexivity|]. now destruct (player_color g).
    + destruct (clicked =? sel);
        [apply (trigger_ok_same g); try assumption; now destruct g|].
      destruct (owned_by_player g clicked); [|exact Hok].
      apply (trigger_ok_same g); try assumption; now destruct g.
  - destruct (owned_by_player g clicked);
      apply (trigger_ok_same g); try assumption; now destruct g.
Qed.

Lemma reset_game_trigger_ok (start ok : bool) (ticks : Z) (g : Game) :
  trigger_ok (reset_game start ok ticks g).
Proof.
  pose proof (reset_game_post start ok ticks g) as K. cbv zeta in K.
  destruct K as (_ & _ & Kt & _ & _ & Kp & Ke & Ktr & _).
  intros t Ht. rewrite Ktr in Ht. rewrite Ke, Kt, Kp.
  destruct (player_color g); [discriminate|]. cbn [Bool.eqb BLACK andb] in Ht.
  destruct (is_some (engine_after_reset start ok g)); [|discriminate].
  split; [reflexivity|discriminate].
Qed.

Lemma step_trigger_ok (g : Game) (st : Step) :
  trigger_ok g -> trigger_ok (step g st).
Proof.
  intros Hok. destruct st as [[ |button pos ticks ok| ]|clock r];
    cbn [step handle_event]; try exact Hok.
  - destruct (button =? 1); [|exact Hok]. unfold handle_mouse_down.
    destruct (collidepoint new_game_button pos).
    { apply reset_game_trigger_ok. }
    destruct (negb (game_over g) && collidepoint resign_button pos).
    { pose proof (resign_game_keeps g) as K. cbv zeta in K.
      destruct K as (Kp & Ke & _ & _ & Kt & Ktr & _).
      now apply (trigger_ok_same g). }
    unfold board_interaction.
    destruct (Bool.eqb (current_turn g) (player_color g)) eqn:Hturn; [|exact Hok].
    apply eqb_prop in Hturn.
    destruct (negb (game_over g)); [|exact Hok]. cbn [andb].
    destruct (get_square_from_mouse (player_color g) pos) as [clicked|].
    + now apply click_square_trigger_ok.
    + apply (trigger_ok_same g); try assumption; now destruct g.
  - destruct (ai_move_timing_cases clock r g) as [->|(t & _ & _ & _ & _ & _ & ->)];
      [exact Hok|].
    destruct (is_some (engine g)
              && negb (Bool.eqb (turn (board g)) (player_color g))
              && negb (game_over g)) eqn:Hguard.
    2:{ now rewrite make_ai_move_guard_fails. }
    apply trigger_ok_none.
    destruct (reply_fails r) eqn:Hr.
    + pose proof (make_ai_move_fails r g Hguard Hr) as K. cbv zeta in K.
      apply K.
    + destruct r as [[m|]| |]; try discriminate Hr.
      cbn [reply_fails] in Hr. apply negb_false_iff in Hr.
      pose proof (make_ai_move_moves m g Hguard Hr) as K. cbv zeta in K.
      apply K.
Qed.

End RunConditions.

Section RunTexts.
Context {R : Rules}.

Lemma set_selected_square_in_sync (v : option Square) (g : Game) :
  ui_in_sync g -> ui_in_sync (set_selected_square v g).
Proof. apply ui_in_sync_same; reflexivity. Qed.

Lemma apply_player_move_in_sync (ticks : Z) (m : Move) (g : Game) :
  ui_in_sync (apply_player_move ticks m g).
Proof.
  unfold apply_player_move. cbv zeta.
  match goal with
  | |- ui_in_sync (if ?c then set_ai_move_trigger_time _ ?y else _) =>
      destruct c; [apply (ui_in_sync_same y); try reflexivity|];
      apply update_ui_text_in_sync
  end.
Qed.

Lemma make_ai_move_in_sync (r : PlayReply) (g : Game) :
  ui_in_sync g -> ui_in_sync (make_ai_move r g).
Proof.
  intros Hok. unfold make_ai_move.
  destruct (is_some (engine g)
            && negb (Bool.eqb (turn (board g)) (player_color g))
            && negb (game_over g)); [|exact Hok].
  cbv zeta.
  match goal with
  | |- ui_in_sync (set_ai_move_trigger_time None ?y) =>
      apply (ui_in_sync_same y); try reflexivity
  end.
  destruct r as [[m|]| |]; [destruct (move_bool m)| | |];
    try apply update_ui_text_in_sync.
  all: match goal with
       | |- ui_in_sync (if ?c then set_current_turn _ ?y else _) =>
           destruct c; [apply (ui_in_sync_same y); try reflexivity|];
           apply update_ui_text_in_sync
       end.
Qed.

Lemma step_in_sync (g : Game) (st : Step) :
  ui_in_sync g -> ui_in_sync (step g st).
Proof.
  intros Hok. destruct st as [[ |button pos ticks ok| ]|clock r];
    cbn [step handle_event]; try exact Hok.
  - destruct (button =? 1); [|exact Hok]. unfold handle_mouse_down.
    destruct (collidepoint new_game_button pos); [apply reset_game_post|].
    destruct (negb (game_over g) && collidepoint resign_button pos).
    { unfold resign_game. destruct (negb (game_over g)); [|exact Hok].
      apply update_ui_text_in_sync. }
    unfold board_interaction.
    destruct (Bool.eqb (current_turn g) (player_color g) && negb (game_over g));
      [|exact Hok].
    destruct (get_square_from_mouse (player_color g) pos) as [clicked|];
      [|now apply set_selected_square_in_sync].
    unfold click_square. destruct (selected_square g) as [sel|].
    + destruct (is_legal (board g) (attempted_move g sel clicked));
        [apply apply_player_move_in_sync|].
      destruct (clicked =? sel); [now apply set_selected_square_in_sync|].
      destruct (owned_by_player g clicked);
        [now apply set_selected_square_in_sync|exact Hok].
    + destruct (owned_by_player g clicked);
        now apply set_selected_square_in_sync.
  - destruct (ai_move_timing_cases clock r g) as [->|(t & _ & _ & _ & _ & _ & ->)];
      [exact Hok|now apply make_ai_move_in_sync].
Qed.

(** X11.  In every state of a run the status line names the side to move on
    the board, and the info line reads "Check!" exactly when the game is not
    flagged over and the side to move is in check: no path through the loop
    changes the board or the game-over flag without refreshing the texts. *)
Theorem texts_follow_the_board
        (skill : Z) (pc : Color) (ok : bool) (ticks : Z) (l : list Step) :
  let g := steps l (startup skill pc ok ticks) in
  status_text g = (color_name (turn (board g)) ++ "'s Turn")%string
  /\ info_text g = (if negb (game_over g) && is_check (board g)
                    then "Check!" else "")%string.
Proof.
  cbv zeta. change (ui_in_sync (steps l (startup skill pc ok ticks))).
  assert (H0 : ui_in_sync (startup skill pc ok ticks))
    by (unfold startup; apply reset_game_post).
  revert H0. generalize (startup skill pc ok ticks).
  induction l as [|st l IH]; intros g Hg; [exact Hg|].
  cbn [steps fold_left]. apply IH. now apply step_in_sync.
Qed.

Lemma run_trigger_ok (skill : Z) (pc : Color) (ok : bool) (ticks : Z)
      (l : list Step) :
  trigger_ok (steps l (startup skill pc ok ticks)).
Proof.
  assert (H0 : trigger_ok (startup skill pc ok ticks))
    by (unfold startup; apply reset_game_trigger_ok).
  revert H0. generalize (startup skill pc ok ticks).
  induction l as [|st l IH]; intros g Hg; [exact Hg|].
  cbn [steps fold_left]. apply IH. now apply step_trigger_ok.
Qed.

(** X12.  In every state of a run an armed trigger comes with an engine
    handle and with a turn flag that is not the player's: the timing check
    can never find a trigger armed on the human's turn or without an
    engine. *)
Theorem trigger_armed_only_for_the_engine
        (skill : Z) (pc : Color) (ok : bool) (ticks : Z) (l : list Step) :
  let g := steps l (startup skill pc ok ticks) in
  match ai_move_trigger_time g with
  | Some t => is_some (engine g) = true /\ current_turn g <> player_color g
  | None => True
  end.
Proof.
  cbv zeta. pose proof (run_trigger_ok skill pc ok ticks l) as H.
  destruct (ai_move_trigger_time _) as [t|] eqn:E; [|exact I].
  exact (H t E).
Qed.

(** X23.  In a run, a legal human move clears the selection, passes the turn
    flag to the other colour and recomputes the game-over flag; it arms the
    trigger with the time of the click exactly when the game goes on and an
    engine exists, and otherwise leaves no trigger armed. *)
Theorem human_move_arms_trigger
        (skill : Z) (pc : Color) (ok : bool) (ticks0 : Z) (l : list Step)
        (ticks : Z) (pos : Z * Z) (sel clicked : Square) :
  let g := steps l (startup skill pc ok ticks0) in
  current_turn g = player_color g -> game_over g = false ->
  selected_square g = Some sel ->
  get_square_from_mouse (player_color g) pos = Some clicked ->
  is_legal (board g) (attempted_move g sel clicked) = true ->
  let g' := board_interaction ticks pos g in
  board g' = push (board g) (attempted_move g sel clicked)
  /\ selected_square g' = None
  /\ current_turn g' = negb (player_color g)
  /\ game_over g' = is_game_over (board g')
  /\ ai_move_trigger_time g'
     = (if negb (game_over g') && is_some (engine g)
        then Some ticks else None).
Proof.
  intros g Hturn Hover Hsel Hpos Hlegal g'.
  pose proof (run_trigger_ok skill pc ok ticks0 l) as Hok. fold g in Hok.
  assert (Hnone : ai_move_trigger_time g = None).
  { destruct (ai_move_trigger_time g) as [t|] eqn:E; [|reflexivity].
    destruct (Hok t E) as [_ N]. contradiction. }
  subst g'. rewrite (board_interaction_click ticks pos clicked g Hturn Hover Hpos).
  rewrite (click_square_legal ticks sel clicked g Hsel Hlegal).
  pose proof (apply_player_move_fields ticks (attempted_move g sel clicked) g)
    as K. cbv zeta in K.
  destruct K as (Kb & Ks & Kt & _ & _ & Ko & _ & Ktr & _).
  rewrite Kb, Ko, Ktr, Hnone. now repeat split.
Qed.

End RunTexts.

Section RunResults.
Context {R : Rules}.

Lemma determine_game_outcome_over (b : Board) :
  is_game_over b = true ->
  exists message, determine_game_outcome b = Some message
                  /\ message <> ""%string.
Proof.
  intros H. unfold determine_game_outcome. rewrite H.
  destruct (outcome b) as [[t w]|]; [|eexists; split; [reflexivity|discriminate]].
  cbn [winner termination].
  destruct w as [w|]; eexists; (split; [reflexivity|]); destruct t; discriminate.
Qed.

Lemma result_ok_same (g g' : Game) :
  game_over g' = game_over g ->
  game_result_message g' = game_result_message g ->
  result_ok g -> result_ok g'.
Proof. unfold result_ok. intros -> ->. trivial. Qed.

Lemma result_ok_recomputed (g' : Game) (b : Board) (old : option string) :
  game_over g' = is_game_over b ->
  game_result_message g'
  = (if is_game_over b then determine_game_outcome b else old) ->
  result_ok g'.
Proof.
  intros Ho Hm Hover. rewrite Ho in Hover. rewrite Hm, Hover.
  now apply determine_game_outcome_over.
Qed.

Lemma step_result_ok (g : Game) (st : Step) :
  result_ok g -> result_ok (step g st).
Proof.
  intros Hok. destruct st as [[ |button pos ticks ok| ]|clock r];
    cbn [step handle_event]; try exact Hok.
  - destruct (button =? 1); [|exact Hok]. unfold handle_mouse_down.
    destruct (collidepoint new_game_button pos).
    { intros Hover. pose proof (reset_game_fields true ok ticks g) as K.
      cbv zeta in K. destruct K as (_ & _ & _ & K & _). congruence. }
    destruct (negb (game_over g) && collidepoint resign_button pos).
    { destruct (game_over g) eqn:Hover.
      - unfold resign_game. now rewrite Hover.
      - destruct (resign_game_result g Hover) as [_ Hm]. intros _.
        eexists. split; [exact Hm|]. destruct (player_color g); discriminate. }
    unfold board_interaction.
    destruct (Bool.eqb (current_turn g) (player_color g) && negb (game_over g));
      [|exact Hok].
    destruct (get_square_from_mouse (player_color g) pos) as [clicked|];
      [|apply (result_ok_same g); try assumption; now destruct g].
    unfold click_square. destruct (selected_square g) as [sel|].
    + destruct (is_legal (board g) (attempted_move g sel clicked)).
      * pose proof (apply_player_move_fields ticks
                      (attempted_move g sel clicked) g) as K.
        cbv zeta in K. destruct K as (_ & _ & _ & _ & _ & Ko & Km & _).
        exact (result_ok_recomputed _ _ _ Ko Km).
      * destruct (clicked =? sel);
          [apply (result_ok_same g); try assumption; now destruct g|].
        destruct (owned_by_player g clicked); [|exact Hok].
        apply (result_ok_same g); try assumption; now destruct g.
    + destruct (owned_by_player g clicked);
        apply (result_ok_same g); try assumption; now destruct g.
  - destruct (ai_move_timing_cases clock r g) as [->|(t & _ & _ & _ & _ & _ & ->)];
      [exact Hok|].
    destruct (is_some (engine g)
              && negb (Bool.eqb (turn (board g)) (player_color g))
              && negb (game_over g)) eqn:Hguard.
    2:{ now rewrite make_ai_move_guard_fails. }
    destruct (reply_fails r) eqn:Hr.
    + pose proof (make_ai_move_fails r g Hguard Hr) as K. cbv zeta in K.
      destruct K as (_ & _ & _ & _ & _ & _ & K).
      destruct r as [mv| |]; destruct K as (Ko & _ & Km).
      * exact (result_ok_recomputed _ _ _ Ko Km).
      * now apply (result_ok_same g).
      * now apply (result_ok_same g).
    + destruct r as [[m|]| |]; try discriminate Hr.
      cbn [reply_fails] in Hr. apply negb_false_iff in Hr.
      pose proof (make_ai_move_moves m g Hguard Hr) as K. cbv zeta in K.
      destruct K as (_ & _ & _ & _ & _ & Ko & Km & _).
      exact (result_ok_recomputed _ _ _ Ko Km).
Qed.

(** X13.  In every state of a run the game-over overlay is drawn exactly when
    the game is flagged over, and it shows the stored result message: a game
    never ends, by mate, draw or resignation, without a non-empty message to
    show. *)
Theorem overlay_shown_exactly_when_over
        (skill : Z) (pc : Color) (ok : bool) (ticks : Z) (l : list Step) :
  let g := steps l (startup skill pc ok ticks) in
  match draw_game_over_overlay g with
  | Some (_, text) => game_over g = true /\ game_result_message g = Some text
  | None => game_over g = false
  end.
Proof.
  cbv zeta.
  assert (H : result_ok (steps l (startup skill pc ok ticks))).
  { assert (H0 : result_ok (startup skill pc ok ticks)).
    { unfold startup. intros Hover.
      pose proof (reset_game_fields false ok ticks
                    (initialize_engine skill ok
                       (mkGame skill pc None new_board None WHITE None "" ""
                               false None []))) as K.
      cbv zeta in K. destruct K as (_ & _ & _ & K & _). congruence. }
    revert H0. generalize (startup skill pc ok ticks).
    induction l as [|st l IH]; intros g Hg; [exact Hg|].
    cbn [steps fold_left]. apply IH. now apply step_result_ok. }
  revert H. generalize (steps l (startup skill pc ok ticks)). intros g H.
  unfold draw_game_over_overlay. unfold result_ok in H.
  destruct (game_over g) eqn:Hover.
  - destruct (H eq_refl) as (m & Hm & Hne). rewrite Hm.
    apply String.eqb_neq in Hne. rewrite Hne. cbn [negb andb]. now split.
  - destruct (game_result_message g); reflexivity.
Qed.

End RunResults.

Section RunEngine.
Context {R : Rules} {L : RulesLaws R}.

Lemma step_calls_ok (g : Game) (st : Step) :
  flags_ok g -> calls_ok g -> calls_ok (step g st).
Proof.
  intros F J b Hb. destruct (step_keeps g st) as (Kp & _). rewrite Kp.
  destruct (step_engine_calls g st)
    as [E|(clock & r & t & _ & _ & _ & Hover & _ & Hside & E & _)];
    rewrite E in Hb.
  - now apply J.
  - apply in_app_or in Hb as [Hb|[<-|[]]]; [now apply J|].
    split; [exact Hside|]. now apply F.
Qed.

(** X14.  Every board handed to the engine during a run has the engine's
    colour to move and is not a finished position. *)
Theorem engine_asked_only_for_its_own_move
        (skill : Z) (pc : Color) (ok : bool) (ticks : Z) (l : list Step)
        (b : Board) :
  In b (engine_calls (steps l (startup skill pc ok ticks))) ->
  turn b <> pc /\ is_game_over b = false.
Proof.
  assert (Hpc : player_color (startup skill pc ok ticks) = pc).
  { unfold startup. rewrite (proj1 (reset_game_keeps _ _ _ _)).
    unfold initialize_engine. now destruct ok. }
  assert (H : forall g, selection_ok g /\ flags_ok g /\ calls_ok g ->
                        calls_ok (steps l g)).
  { induction l as [|st l IH]; intros g (Hs & Hf & Hc); [exact Hc|].
    cbn [steps fold_left]. apply IH. split; [|split].
    - now apply step_selection_ok.
    - now apply step_flags_ok.
    - now apply step_calls_ok. }
  intros Hb.
  assert (H0 : selection_ok (startup skill pc ok ticks)
               /\ flags_ok (startup skill pc ok ticks)
               /\ calls_ok (startup skill pc ok ticks)).
  { assert (Hr : reachable (startup skill pc ok ticks))
      by (exists skill, pc, ok, ticks, []; reflexivity).
    destruct (reachable_ok _ Hr) as [Hs Hf]. split; [exact Hs|].
    split; [exact Hf|].
    intros b' Hb'. unfold startup in Hb'.
    rewrite (proj2 (proj2 (proj2 (reset_game_keeps _ _ _ _)))) in Hb'.
    unfold initialize_engine in Hb'. now destruct ok. }
  destruct (H _ H0 b Hb) as [H1 H2].
  rewrite (proj1 (steps_keeps l _)), Hpc in H1.
  now split.
Qed.

End RunEngine.

(** ** Buttons *)

(** X15.  The two game buttons overlap neither each other nor the board: a
    click can be taken by at most one of the three, so the order in which
    they are tried does not matter. *)
Theorem buttons_and_board_are_disjoint (pc : Color) (pos : Z * Z) :
  collidepoint new_game_button pos && collidepoint resign_button pos = false
  /\ (collidepoint new_game_button pos || collidepoint resign_button pos)
     && is_some (get_square_from_mouse pc pos) = false.
Proof.
  destruct pos as [x y].
  unfold collidepoint, new_game_button, resign_button, get_square_from_mouse,
    in_board. cbn [left top width height].
  change start_x with 265. change button_y with 610.
  change button_width with 120. change button_height with 40.
  change button_spacing with 30.
  change BOARD_X with 160. change BOARD_Y with 110.
  change BOARD_WIDTH with 480. change BOARD_HEIGHT with 480.
  split.
  - apply andb_false_iff.
    destruct (x <? 265 + 120) eqn:E1; [right|left].
    + apply Z.ltb_lt in E1. rewrite !andb_false_iff, Z.leb_gt. left; left; left. lia.
    + now rewrite andb_false_r.
  - destruct (110 + 480 <=? y) eqn:E.
    + apply Z.leb_le in E.
      replace (y <? 110 + 480) with false by (symmetry; apply Z.ltb_ge; lia).
      rewrite andb_false_r. cbn [negb is_some]. apply andb_false_r.
    + apply Z.leb_gt in E.
      replace (610 <=? y) with false by (symmetry; apply Z.leb_gt; lia).
      now rewrite !andb_false_r.
Qed.

(** X16.  On the game buttons, whatever their flags from earlier frames, the
    button loop of the mouse handler does this: a click on "New Game" resets
    the game; otherwise a click on "Resign" in a game not over resigns;
    otherwise the click goes to the board.  At most one of the three
    happens, and the buttons stay the game buttons. *)
Theorem button_loop_dispatches_once
        {R : Rules} (buttons : list GameButton) (pos : Z * Z) (ticks : Z)
        (ok : bool) (g : Game) :
  are_game_buttons buttons ->
  snd (mouse_down_with_buttons buttons pos ticks ok g)
  = handle_mouse_down pos ticks ok g
  /\ are_game_buttons (fst (mouse_down_with_buttons buttons pos ticks ok g)).
Proof.
  unfold are_game_buttons. intros H.
  destruct buttons as [|b1 [|b2 [|b3 rest]]]; try discriminate H.
  cbn [map] in H. injection H as H1 H2 H3 H4 H5 H6.
  unfold mouse_down_with_buttons, handle_mouse_down.
  cbn [button_pass]. rewrite H2, H5. cbn [GameAction_eqb].
  unfold handle_click. cbn [set_is_active is_active rect action value].
  rewrite H1, H2, H4, H5. cbn [andb call_game_action].
  destruct (collidepoint new_game_button pos).
  - cbn [fst snd negb map]. unfold set_is_active. cbn [rect action value].
    rewrite H1, H2, H3, H4, H5, H6. now split.
  - destruct (negb (game_over g) && collidepoint resign_button pos);
      cbn [fst snd negb map]; unfold set_is_active; cbn [rect action value];
      rewrite H1, H2, H3, H4, H5, H6; now split.
Qed.

Lemma button_loop_dispatches_once_witness :
  snd (mouse_down_with_buttons game_buttons Fragment.on_new_game 50 true
         Fragment.after_e4)
  = handle_mouse_down Fragment.on_new_game 50 true Fragment.after_e4
  /\ are_game_buttons
       (fst (mouse_down_with_buttons game_buttons Fragment.on_new_game 50 true
               Fragment.after_e4)).
Proof.
  apply (@button_loop_dispatches_once Fragment.rules game_buttons). reflexivity.
Defined.

(** ** The menu *)

Lemma menu_initial_shapes :
  map Menu.shape (Menu.difficulty_buttons Menu.initial)
  = [(rect (Menu.difficulty_button 0), Some Menu.set_difficulty, Some (Menu.Level 0));
     (rect (Menu.difficulty_button 1), Some Menu.set_difficulty, Some (Menu.Level 1));
     (rect (Menu.difficulty_button 2), Some Menu.set_difficulty, Some (Menu.Level 2));
     (rect (Menu.difficulty_button 3), Some Menu.set_difficulty, Some (Menu.Level 3));
     (rect (Menu.difficulty_button 4), Some Menu.set_difficulty, Some (Menu.Level 4))]
  /\ map Menu.shape (Menu.color_buttons Menu.initial)
     = [(rect Menu.white_btn, Some Menu.set_color, Some (Menu.Side WHITE));
        (rect Menu.black_btn, Some Menu.set_color, Some (Menu.Side BLACK))]
  /\ Menu.shape (Menu.start_btn Menu.initial)
     = (rect Menu.initial_start_btn, Some Menu.start_game_action, None).
Proof. repeat split. Qed.

(** What one click can do to the menu. *)
Lemma menu_click_cases (m : Menu.State) (pos : Z * Z) :
  Menu.menu_ok m ->
  let m' := Menu.click_buttons (Menu.all_menu_buttons m) pos m in
  m' = m
  \/ (exists i, 0 <= i <= 4 /\ m' = Menu.do_set_difficulty i m)
  \/ (exists c, m' = Menu.do_set_color c m)
  \/ m' = Menu.do_start_game_action m.
Proof.
  intros [Hd Hc Hs _ _ _ _ _]. cbv zeta.
  destruct menu_initial_shapes as (Sd & Sc & Ss).
  rewrite Sd in Hd. rewrite Sc in Hc. rewrite Ss in Hs.
  unfold Menu.all_menu_buttons.
  destruct (Menu.difficulty_buttons m) as [|b0 [|b1 [|b2 [|b3 [|b4 [|b5 l]]]]]];
    try discriminate Hd.
  destruct (Menu.color_buttons m) as [|w [|k [|x l]]]; try discriminate Hc.
  cbn [map Menu.shape] in Hd, Hc. unfold Menu.shape in Hs.
  injection Hd as _ A0 V0 _ A1 V1 _ A2 V2 _ A3 V3 _ A4 V4.
  injection Hc as _ Aw Vw _ Ak Vk. injection Hs as _ As Vs.
  cbn [app Menu.click_buttons]. unfold handle_click.
  rewrite A0, V0, A1, V1, A2, V2, A3, V3, A4, V4, Aw, Vw, Ak, Vk, As, Vs.
  cbn [Menu.call].
  repeat match goal with
         | |- context [if ?c then (true, _) else (false, _)] => destruct c
         end.
  all: first [ now left
             | right; left; eexists; split; [|reflexivity]; lia
             | right; right; left; eexists; reflexivity
             | now right; right; right ].
Qed.

Lemma menu_shape_set_is_selected (f : Menu.MenuButton -> bool)
      (l : list Menu.MenuButton) :
  map Menu.shape (map (fun b => set_is_selected (f b) b) l) = map Menu.shape l.
Proof. rewrite map_map. apply map_ext. now intros []. Qed.

Lemma menu_shape_check_hover (pos : Z * Z) (l : list Menu.MenuButton) :
  map Menu.shape (map (fun b => check_hover b pos) l) = map Menu.shape l.
Proof. rewrite map_map. apply map_ext. now intros []. Qed.

Lemma do_set_difficulty_ok (i : Z) (m : Menu.State) :
  0 <= i <= 4 -> Menu.menu_ok m -> Menu.menu_ok (Menu.do_set_difficulty i m).
Proof.
  intros Hi [Hd Hc Hs Hl Hdm Hcm Hp Hm].
  split; cbn [Menu.do_set_difficulty Menu.difficulty_buttons Menu.color_buttons
              Menu.start_btn Menu.menu_selected_difficulty
              Menu.menu_selected_color Menu.game_state Menu.menu_running
              Menu.chosen_skill_level Menu.player_color]; try assumption.
  - now rewrite menu_shape_set_is_selected.
  - intros d E. injection E as <-. exact Hi.
  - intros b Hb. apply in_map_iff in Hb as (b0 & <- & _). now destruct b0.
  - intros E. destruct (Hp E) as (H1 & _ & H3 & H4).
    split; [exact H1|]. split; [now exists i|]. now split.
Qed.

Lemma do_set_color_ok (c : Color) (m : Menu.State) :
  Menu.menu_ok m -> Menu.menu_ok (Menu.do_set_color c m).
Proof.
  intros [Hd Hc Hs Hl Hdm Hcm Hp Hm].
  split; cbn [Menu.do_set_color Menu.difficulty_buttons Menu.color_buttons
              Menu.start_btn Menu.menu_selected_difficulty
              Menu.menu_selected_color Menu.game_state Menu.menu_running
              Menu.chosen_skill_level Menu.player_color]; try assumption.
  - now rewrite menu_shape_set_is_selected.
  - intros b Hb. apply in_map_iff in Hb as (b0 & <- & _). now destruct b0.
  - intros E. destruct (Hp E) as (H1 & H2 & _ & H4).
    split; [exact H1|]. split; [exact H2|]. split; [now exists c|exact H4].
Qed.

Lemma do_start_game_action_ok (m : Menu.State) :
  Menu.menu_ok m -> Menu.menu_ok (Menu.do_start_game_action m).
Proof.
  intros Hok. unfold Menu.do_start_game_action.
  destruct (Menu.menu_selected_difficulty m) as [d|] eqn:Ed; [|exact Hok].
  destruct (Menu.menu_selected_color m) as [c|] eqn:Ec; [|exact Hok].
  destruct Hok as [Hd Hc Hs Hl Hdm Hcm Hp Hm].
  split; cbn [Menu.difficulty_buttons Menu.color_buttons
              Menu.start_btn Menu.menu_selected_difficulty
              Menu.menu_selected_color Menu.game_state Menu.menu_running
              Menu.chosen_skill_level Menu.player_color]; try assumption.
  - intros d' E. apply Hl. congruence.
  - intros b Hb. rewrite (Hdm b Hb), Ed. reflexivity.
  - intros b Hb. rewrite (Hcm b Hb), Ec. reflexivity.
  - intros _. split; [reflexivity|]. split; [now exists d|].
    split; [now exists c|]. now apply Hl.
  - intros N. now contradiction N.
Qed.

Lemma menu_event_ok (m : Menu.State) (e : Event) :
  Menu.menu_ok m -> Menu.menu_ok (Menu.menu_event m e).
Proof.
  intros Hok. unfold Menu.menu_event. destruct (Menu.exited m); [exact Hok|].
  destruct e as [ |button pos ticks ok| ]; try exact Hok.
  - destruct Hok as [Hd Hc Hs Hl Hdm Hcm Hp Hm]. split; try assumption.
    cbn [Menu.game_state Menu.menu_running Menu.menu_selected_difficulty
         Menu.menu_selected_color Menu.chosen_skill_level].
    intros E. destruct (Hp E) as (_ & H). now split.
  - destruct (button =? 1); [|exact Hok].
    destruct (menu_click_cases m pos Hok) as [->|[(i & Hi & ->)|[(c & ->)| ->]]].
    + exact Hok.
    + now apply do_set_difficulty_ok.
    + now apply do_set_color_ok.
    + now apply do_start_game_action_ok.
Qed.

Lemma menu_frame_ok (m : Menu.State) (f : (Z * Z) * list Event) :
  Menu.menu_ok m -> Menu.menu_ok (Menu.menu_frame m f).
Proof.
  intros Hok. destruct f as [mouse_pos evs]. unfold Menu.menu_frame.
  match goal with
  | |- Menu.menu_ok (fold_left _ _ ?m0) =>
      assert (H0 : Menu.menu_ok m0); [|revert H0; generalize m0]
  end.
  - destruct Hok as [Hd Hc Hs Hl Hdm Hcm Hp Hm].
    split; cbn [Menu.difficulty_buttons Menu.color_buttons
                Menu.start_btn Menu.menu_selected_difficulty
                Menu.menu_selected_color Menu.game_state Menu.menu_running
                Menu.chosen_skill_level Menu.player_color]; try assumption.
    + now rewrite menu_shape_check_hover.
    + now rewrite menu_shape_check_hover.
    + intros b Hb. apply in_map_iff in Hb as (b0 & <- & Hb0).
      pose proof (Hdm b0 Hb0) as E. destruct b0. exact E.
    + intros b Hb. apply in_map_iff in Hb as (b0 & <- & Hb0).
      pose proof (Hcm b0 Hb0) as E. destruct b0. exact E.
  - induction evs as [|e evs IH]; intros m0 H0; [exact H0|].
    cbn [fold_left]. apply IH. now apply menu_event_ok.
Qed.

Lemma menu_initial_ok : Menu.menu_ok Menu.initial.
Proof.
  split; try reflexivity; cbn [Menu.initial Menu.menu_selected_difficulty
                                 Menu.menu_selected_color Menu.game_state
                                 Menu.difficulty_buttons Menu.color_buttons].
  - discriminate.
  - intros b Hb. apply in_map_iff in Hb as (i & <- & _). reflexivity.
  - intros b [<-|[<-|[]]]; reflexivity.
  - discriminate.
  - intros _. now repeat split.
Qed.

Lemma run_menu_ok (frames : list ((Z * Z) * list Event)) (m : Menu.State) :
  Menu.menu_ok m -> Menu.menu_ok (Menu.run_menu frames m).
Proof.
  revert m. induction frames as [|f frames IH]; intros m Hok; [exact Hok|].
  cbn [Menu.run_menu]. destruct (Menu.menu_running m); [|exact Hok].
  apply IH. now apply menu_frame_ok.
Qed.

(** X17.  However the menu is operated, it hands over to the game only
    after a difficulty and a colour have both been selected, with the loop
    stopped and a skill level within 0..4; until then the game state stays
    [MENU] and the globals keep their defaults. *)
Theorem menu_starts_game_only_when_both_chosen
        (frames : list ((Z * Z) * list Event)) :
  let m := Menu.run_menu frames Menu.initial in
  if Menu.game_state m =? Menu.PLAYING
  then Menu.menu_running m = false
       /\ (exists d, Menu.menu_selected_difficulty m = Some d)
       /\ (exists c, Menu.menu_selected_color m = Some c)
       /\ 0 <= Menu.chosen_skill_level m <= 4
  else Menu.game_state m = Menu.MENU
       /\ Menu.chosen_skill_level m = 0 /\ Menu.player_color m = WHITE.
Proof.
  cbv zeta. pose proof (run_menu_ok frames _ menu_initial_ok) as Hok.
  destruct (Menu.game_state _ =? Menu.PLAYING) eqn:E.
  - apply Z.eqb_eq in E. now apply Hok.
  - apply Z.eqb_neq in E. now apply Hok.
Qed.

(** X18.  The highlighted menu buttons always show the current selection:
    a difficulty (colour) button is marked selected exactly when its value is
    the selected level (colour), so none is marked before a choice and at
    most one per row after. *)
Theorem menu_highlights_show_the_selection
        (frames : list ((Z * Z) * list Event)) :
  let m := Menu.run_menu frames Menu.initial in
  Forall (fun b => is_selected b
                   = match Menu.menu_selected_difficulty m with
                     | Some d => Menu.value_is_level d b
                     | None => false
                     end) (Menu.difficulty_buttons m)
  /\ Forall (fun b => is_selected b
                      = match Menu.menu_selected_color m with
                        | Some c => Menu.value_is_side c b
                        | None => false
                        end) (Menu.color_buttons m)
  /\ map value (Menu.difficulty_buttons m)
     = map (fun i => Some (Menu.Level i)) (range 5)
  /\ map value (Menu.color_buttons m)
     = [Some (Menu.Side WHITE); Some (Menu.Side BLACK)].
Proof.
  cbv zeta. pose proof (run_menu_ok frames _ menu_initial_ok) as Hok.
  destruct Hok as [Hd Hc _ _ Hdm Hcm _ _].
  split; [apply Forall_forall; exact Hdm|].
  split; [apply Forall_forall; exact Hcm|].
  split.
  - apply (f_equal (map (fun s => snd s))) in Hd. rewrite !map_map in Hd.
    exact Hd.
  - apply (f_equal (map (fun s => snd s))) in Hc. rewrite !map_map in Hc.
    exact Hc.
Qed.

(** ** The payment calls, counted *)

Lemma stripe_calls_app (t u : list Web.Effect) :
  Web.stripe_calls (t ++ u) = (Web.stripe_calls t ++ Web.stripe_calls u)%list.
Proof.
  induction t as [|[line|c] t IH]; cbn; [reflexivity | exact IH | now rewrite IH].
Qed.

(** X19.  With simulation off, [checkout] calls the payment service exactly
    once, to create a session, and never lets an exception out: a created
    session is answered by a 303 redirect to its hosted page, a failure by a
    JSON error with status 500. *)
Theorem checkout_live_calls_stripe_once
        (stripe : Web.Stripe) (req : Web.Request) (t : list Web.Effect) :
  fst (Web.checkout false stripe req t)
  = Web.Returned
      match Web.session_create stripe with
      | Web.Created id url => Web.Redirect (Web.HostedPage url) 303
      | Web.CreateRaises e => Web.JsonError e 500
      end
  /\ Web.stripe_calls (snd (Web.checkout false stripe req t))
     = (Web.stripe_calls t ++ [Web.SessionCreate])%list.
Proof.
  cbv [Web.checkout Web.try_except Web.bind Web.Session_create Web.emit
       Web.print Web.ret].
  destruct (Web.session_create stripe) as [sid url|e]; cbn [fst snd];
    rewrite !stripe_calls_app; cbn [Web.stripe_calls];
    rewrite ?app_nil_r; now split.
Qed.

(** X20.  [success] asks the payment service about a session exactly when
    the request carries a non-empty [session_id], once and for that id; a
    missing or empty id means no call at all. *)
Theorem success_verifies_given_session_once
        (stripe : Web.Stripe) (req : Web.Request) (t : list Web.Effect) :
  Web.stripe_calls (snd (Web.success stripe req t))
  = (Web.stripe_calls t
     ++ match Web.args_get "session_id" (Web.args req) with
        | Some session_id =>
            if Web.str_bool session_id
            then [Web.SessionRetrieve session_id] else []
        | None => []
        end)%list.
Proof.
  cbv [Web.success Web.try_except Web.bind Web.Session_retrieve Web.emit
       Web.print Web.ret].
  destruct (Web.args_get "session_id" (Web.args req)) as [sid|].
  2:{ cbn [fst snd]. rewrite stripe_calls_app. cbn. now rewrite !app_nil_r. }
  destruct (Web.str_bool sid).
  2:{ cbn [fst snd]. rewrite stripe_calls_app. cbn. now rewrite !app_nil_r. }
  destruct (Web.session_retrieve stripe sid) as [status|e].
  - destruct (String.eqb status "paid"); cbn [fst snd];
      rewrite !stripe_calls_app; cbn; now rewrite !app_nil_r.
  - cbn [fst snd]. rewrite !stripe_calls_app. cbn. now rewrite !app_nil_r.
Qed.

(** ** Launching the game *)

(** X21.  [start_game] answers 200 exactly when [main.py] is there and either
    the process was spawned or, on Windows, the batch-file fallback went
    through; it answers 404 exactly when [main.py] is missing, and then it
    spawns nothing and writes nothing; every other case is a 500.  The chosen
    settings are echoed only with a 200. *)
Theorem start_game_reports_what_happened
        (host : Launch.Host) (req : Web.Request) :
  let r := Launch.start_game host req in
  (Launch.code (fst r) = 200
   <-> Launch.main_py_exists host = true
       /\ (Launch.popen_raises host = None
           \/ (Launch.win32 host = true /\ Launch.write_raises host = None
               /\ Launch.startfile_raises host = None)))
  /\ (Launch.code (fst r) = 404 <-> Launch.main_py_exists host = false)
  /\ (Launch.main_py_exists host = false
      -> filter Launch.is_launch (snd r) = [])
  /\ (Launch.code (fst r) = 200 \/ Launch.code (fst r) = 404
      \/ Launch.code (fst r) = 500)
  /\ (Launch.params (fst r) <> None <-> Launch.code (fst r) = 200).
Proof.
  cbv zeta. unfold Launch.start_game.
  destruct (Launch.main_py_exists host), (Launch.popen_raises host),
    (Launch.win32 host), (Launch.write_raises host),
    (Launch.startfile_raises host);
    cbn [negb fst snd Launch.code Launch.params Launch.error_response filter
         Launch.is_launch];
    intuition (try discriminate; try congruence; auto).
Qed.

(** X22.  Whatever process [start_game] spawns, its command line ends with
    [--skill] followed by the [difficulty] argument as received (default
    ["0"]) and [--color] followed by ["1"] when the [color] argument is
    exactly ["black"] and by ["0"] otherwise; the shell is used exactly on
    Windows. *)
Theorem start_game_command_line
        (host : Launch.Host) (req : Web.Request) (cmd : list string)
        (shell : bool) :
  In (Launch.Popen cmd shell) (snd (Launch.start_game host req)) ->
  shell = Launch.win32 host
  /\ Launch.last_four cmd
     = ["--skill";
        Launch.args_get_default "difficulty" "0" (Web.args req);
        "--color";
        if String.eqb (Launch.args_get_default "color" "white" (Web.args req))
                      "black"
        then "1" else "0"].
Proof.
  unfold Launch.start_game.
  assert (Hcmd : forall d c,
             Launch.last_four (Launch.command host d c)
             = ["--skill"; d; "--color"; Launch.color_value c])
    by (intros d c; unfold Launch.command; destruct (Launch.win32 host);
        reflexivity).
  destruct (Launch.main_py_exists host); cbn [negb].
  2:{ cbn [snd In]. intros [H|[]]. discriminate. }
  assert (Hin : forall l,
             Forall (fun e => Launch.is_launch e = true ->
                              forall c s, e <> Launch.Popen c s) l ->
             In (Launch.Popen cmd shell)
                ([Launch.Print ("Looking for main.py at: "
                                ++ Launch.main_py_path host);
                  Launch.Print
                    ("Starting game with: difficulty="
                     ++ Launch.args_get_default "difficulty" "0" (Web.args req)
                     ++ ", color="
                     ++ Launch.args_get_default "color" "white" (Web.args req));
                  Launch.Print
                    ("Command: "
                     ++ String.concat " "
                          (Launch.command host
                             (Launch.args_get_default "difficulty" "0" (Web.args req))
                             (Launch.args_get_default "color" "white" (Web.args req))));
                  Launch.Popen
                    (Launch.command host
                       (Launch.args_get_default "difficulty" "0" (Web.args req))
                       (Launch.args_get_default "color" "white" (Web.args req)))
                    (Launch.win32 host)] ++ l)%list ->
             shell = Launch.win32 host
             /\ Launch.last_four cmd
                = ["--skill";
                   Launch.args_get_default "difficulty" "0" (Web.args req);
                   "--color";
                   Launch.color_value
                     (Launch.args_get_default "color" "white" (Web.args req))]).
  { intros l Hl H. apply in_app_or in H as [H|H].
    - cbn [In] in H. destruct H as [H|[H|[H|[H|[]]]]]; try discriminate H.
      injection H as <- <-. split; [reflexivity|apply Hcmd].
    - exfalso. rewrite Forall_forall in Hl.
      exact (Hl _ H eq_refl cmd shell eq_refl). }
  unfold Launch.color_value in Hin. revert Hin.
  destruct (Launch.popen_raises host) as [e|], (Launch.win32 host),
    (Launch.write_raises host) as [we|],
    (Launch.startfile_raises host) as [se|];
    intros Hin; cbn [snd]; rewrite <- ?app_assoc; intros H;
    try (apply (Hin []); [constructor|now rewrite app_nil_r]);
    (eapply Hin; [|exact H]); repeat constructor; discriminate.
Qed.

(** ** The further properties at work *)

Lemma engine_asked_only_for_its_own_move_witness :
  @turn Fragment.rules (Fragment.play Fragment.start Fragment.e2e4) <> WHITE
  /\ @is_game_over Fragment.rules (Fragment.play Fragment.start Fragment.e2e4)
     = false.
Proof.
  apply (@engine_asked_only_for_its_own_move Fragment.rules fragment_laws
           0 WHITE true 0
           [StepEvent (Fragment.click (Fragment.centre_for_white Fragment.e2) 10 true);
            StepEvent (Fragment.click (Fragment.centre_for_white Fragment.e4) 20 true);
            StepTiming 520 (PlayResult (Some Fragment.e7e5))]).
  vm_compute. left. reflexivity.
Defined.

Lemma human_move_arms_trigger_witness :
  let g := Fragment.pawn_selected in
  let g' := board_interaction 20 (Fragment.centre_for_white Fragment.e4) g in
  board g' = push (board g) (attempted_move g Fragment.e2 Fragment.e4)
  /\ selected_square g' = None
  /\ current_turn g' = negb (player_color g)
  /\ game_over g' = is_game_over (board g')
  /\ ai_move_trigger_time g'
     = (if negb (game_over g') && is_some (engine g) then Some 20 else None).
Proof.
  apply (@human_move_arms_trigger Fragment.rules 0 WHITE true 0
           [StepEvent (Fragment.click (Fragment.centre_for_white Fragment.e2) 10 true)]
           20 (Fragment.centre_for_white Fragment.e4) Fragment.e2 Fragment.e4);
    reflexivity.
Defined.

Lemma start_game_command_line_witness :
  false = false
  /\ Launch.last_four ["/usr/bin/python3"; "/srv/main.py";
                       "--skill"; "3"; "--color"; "1"]
     = ["--skill"; "3"; "--color"; "1"].
Proof.
  apply (start_game_command_line
           (Launch.mkHost false "/usr/bin/python3" "/srv/main.py" true
              (fun _ => "/srv") (fun a b => (a ++ "/" ++ b)%string)
              None None None)
           (Web.mkRequest Web.GET [("difficulty", "3"); ("color", "black")])
           ["/usr/bin/python3"; "/srv/main.py"; "--skill"; "3"; "--color"; "1"]
           false).
  cbn. tauto.
Defined.
